(** * Pose scoring and feedback of the pose coach

    A shallow embedding of [src/utils/poseScoring.ts] ([scorePose],
    [getPoseFeedback]) and of [analyzePose] from the rule based variant of
    [src/hooks/usePoseDetection.ts], with the properties the specification
    states about them.  The second part adds [calculateAngle] and
    [analyzePoseForFeedback] of [poseScoring.ts] and what
    [scorePoseAgainstTemplate] stores, with further properties of all of
    them; there [Math.atan2] is the angle of a point, in [(-PI, PI]].

    Numbers.  A JavaScript [number] is read as a real number: [+], [-], [*],
    [/], [Math.sqrt], [Math.abs], [Math.max] are the operations of [R], and
    [Math.round] is [floor (v + 1/2)].  NaN, the infinities and binary64
    rounding are outside this reading, so every statement below is about the
    exact arithmetic the code denotes.

    Objects.  A plain object used as a dictionary is the list of its own
    entries in the order [Object.keys] enumerates them; a [Map] is a [gmap].
    Property names inherited from [Object.prototype] are outside the model of
    the weight table. *)

From Stdlib Require Import Reals Lra Lia ZArith Ascii.
From stdpp Require Import base gmap strings list.

#[local] Open Scope R_scope.

(** ** JavaScript numbers and strings *)

#[local] Instance Rlt_decision (a b : R) : Decision (a < b) := Rlt_dec a b.
#[local] Instance Rle_decision (a b : R) : Decision (a <= b) := Rle_dec a b.
#[local] Instance Req_decision : EqDecision R := Req_dec_T.

(** [a > b], [a >= b], [a < b] as the conditions of an [if]. *)
Definition js_gt (a b : R) : bool := bool_decide (b < a).
Definition js_ge (a b : R) : bool := bool_decide (b <= a).
Definition js_lt (a b : R) : bool := bool_decide (a < b).

(** Truthiness of a number and of a string: [0] and [''] are falsy. *)
Definition truthy_number (v : R) : bool := bool_decide (v ≠ 0).
Definition truthy_string (s : string) : bool := bool_decide (s ≠ ""%string).

(** [Math.round]: the nearest integer, halves towards plus infinity. *)
Definition Math_round (v : R) : R := IZR (Zfloor (v + / 2)).

Definition Math_max (a b : R) : R := Rmax a b.
Definition Math_abs (a : R) : R := Rabs a.
Definition Math_sqrt (a : R) : R := sqrt a.
Definition Math_pow (a : R) (n : nat) : R := a ^ n.

(** [s.replace(c, d)] with a one character pattern: the first occurrence only. *)
Fixpoint replace_first (c d : Ascii.ascii) (s : string) : string :=
  match s with
  | EmptyString => EmptyString
  | String a rest =>
      if Ascii.eqb a c then String d rest else String a (replace_first c d rest)
  end.

(** [l.join(sep)]. *)
Definition join (sep : string) (l : list string) : string := String.concat sep l.

(** [l.includes(s)] on an array of strings. *)
Definition includes (l : list string) (s : string) : bool := bool_decide (s ∈ l).

(** ** The detector's data: [Keypoint] and [Pose] *)

(** [name] and [score] are optional in the detector's [Keypoint]. *)
Record Keypoint := mkKeypoint {
  kp_x : R;
  kp_y : R;
  kp_score : option R;
  kp_name : option string
}.

(** Only [keypoints] of a [Pose] is read; both functions guard against its
    absence, so it is optional here. *)
Record Pose := mkPose {
  pose_keypoints : option (list Keypoint)
}.

(** ** [PoseSelector.tsx]: templates *)

Record Point := mkPoint { pt_x : R; pt_y : R }.

Record PoseTemplate := mkTemplate {
  tpl_id : string;
  tpl_name : string;
  tpl_description : string;
  tpl_image : string;
  tpl_keypoints : list (string * Point)
}.

(** [Object.keys(o)] and [Object.keys(o).length]. *)
Definition Object_keys {A} (o : list (string * A)) : list string := o.*1.

(** [o[k] || d] on a table of numbers. *)
Definition table_get (o : list (string * R)) (k : string) : option R :=
  snd <$> List.find (fun e => String.eqb (fst e) k) o.

Definition or_default (v : option R) (d : R) : R :=
  match v with
  | Some w => if truthy_number w then w else d
  | None => d
  end.

Definition front_double_biceps : PoseTemplate :=
  mkTemplate "front-double-biceps" "Front Double Biceps"
    "Face the front with arms bent, fists clenched, and biceps flexed."
    "/poses/front-double-biceps.png"
    [ ("left_shoulder", mkPoint 0.35 0.25); ("right_shoulder", mkPoint 0.65 0.25);
      ("left_elbow", mkPoint 0.25 0.35); ("right_elbow", mkPoint 0.75 0.35);
      ("left_wrist", mkPoint 0.3 0.2); ("right_wrist", mkPoint 0.7 0.2);
      ("left_hip", mkPoint 0.4 0.55); ("right_hip", mkPoint 0.6 0.55);
      ("left_knee", mkPoint 0.4 0.8); ("right_knee", mkPoint 0.6 0.8) ]%string.

Definition side_chest : PoseTemplate :=
  mkTemplate "side-chest" "Side Chest"
    "Stand sideways, flex the chest, and bring one arm across to emphasize chest development."
    "/poses/side-chest.png"
    [ ("left_shoulder", mkPoint 0.4 0.25); ("right_shoulder", mkPoint 0.55 0.25);
      ("left_elbow", mkPoint 0.3 0.4); ("right_elbow", mkPoint 0.45 0.4);
      ("left_wrist", mkPoint 0.45 0.35); ("right_wrist", mkPoint 0.6 0.35);
      ("left_hip", mkPoint 0.45 0.55); ("right_hip", mkPoint 0.55 0.55);
      ("left_knee", mkPoint 0.4 0.8); ("right_knee", mkPoint 0.6 0.8) ]%string.

(** ** [poseScoring.ts] *)

Module poseScoring.

Record PoseScoreResult := mkResult {
  score : R;
  matchedKeypoints : nat;
  totalKeypoints : nat;
  missingKeypoints : list string
}.

(** The [forEach] that fills [keypointMap]: a keypoint is stored under its
    name when [keypoint.name && keypoint.score && keypoint.score > 0.3]; a
    later keypoint of the same name replaces an earlier one. *)
Definition keypointMap_add (m : gmap string Keypoint) (keypoint : Keypoint)
  : gmap string Keypoint :=
  match kp_name keypoint, kp_score keypoint with
  | Some n, Some s =>
      if truthy_string n && truthy_number s && js_gt s 0.3
      then <[n := keypoint]> m else m
  | _, _ => m
  end.

Definition keypointMap (keypoints : list Keypoint) : gmap string Keypoint :=
  fold_left keypointMap_add keypoints ∅.

Definition keypointWeights : list (string * R) :=
  [ ("nose", 1.0); ("left_eye", 0.8); ("right_eye", 0.8);
    ("left_ear", 0.7); ("right_ear", 0.7);
    ("left_shoulder", 1.5); ("right_shoulder", 1.5);
    ("left_elbow", 1.5); ("right_elbow", 1.5);
    ("left_wrist", 1.5); ("right_wrist", 1.5);
    ("left_hip", 0.8); ("right_hip", 0.8);
    ("left_knee", 0.6); ("right_knee", 0.6);
    ("left_ankle", 0.4); ("right_ankle", 0.4) ]%string.

(** [keypointWeights[keypointName] || 1.0]. *)
Definition weightOf (keypointName : string) : R :=
  or_default (table_get keypointWeights keypointName) 1.0.

(** The four accumulators of the loop over the template's parts. *)
Record Acc := mkAcc {
  totalScore : R;
  totalWeight : R;
  matched : list string;
  missing : list string
}.

(** [distance] of the loop body. *)
Definition distance (target : Point) (detectedKeypoint : Keypoint)
    (imageWidth imageHeight : R) : R :=
  let templateX := pt_x target * imageWidth in
  let templateY := pt_y target * imageHeight in
  let detectedX := kp_x detectedKeypoint in
  let detectedY := kp_y detectedKeypoint in
  Math_sqrt (Math_pow ((templateX - detectedX) / imageWidth) 2 +
             Math_pow ((templateY - detectedY) / imageHeight) 2).

(** One turn of [templateKeypointNames.forEach]; [entry] is the name together
    with [template.keypoints[keypointName]]. *)
Definition scoreStep (keypointMap : gmap string Keypoint)
    (imageWidth imageHeight : R) (acc : Acc) (entry : string * Point) : Acc :=
  let keypointName := entry.1 in
  let weight := weightOf keypointName in
  let totalWeight' := totalWeight acc + weight in
  match keypointMap !! keypointName with
  | Some detectedKeypoint =>
      let keypointScore :=
        Math_max 0 (1 - distance entry.2 detectedKeypoint imageWidth imageHeight * 5) in
      mkAcc (totalScore acc + keypointScore * weight) totalWeight'
            (matched acc ++ [keypointName]) (missing acc)
  | None =>
      mkAcc (totalScore acc) totalWeight' (matched acc) (missing acc ++ [keypointName])
  end.

Definition scoreLoop (keypointMap : gmap string Keypoint)
    (template : PoseTemplate) (imageWidth imageHeight : R) : Acc :=
  fold_left (scoreStep keypointMap imageWidth imageHeight)
            (tpl_keypoints template) (mkAcc 0 0 [] []).

Definition scorePose (pose : Pose) (template : PoseTemplate)
    (imageWidth imageHeight : R) : PoseScoreResult :=
  match pose_keypoints pose with
  | None | Some [] =>
      mkResult 0 0 (length (Object_keys (tpl_keypoints template)))
               (Object_keys (tpl_keypoints template))
  | Some keypoints =>
      let acc := scoreLoop (keypointMap keypoints) template imageWidth imageHeight in
      let finalScore :=
        if js_gt (totalWeight acc) 0
        then (totalScore acc / totalWeight acc) * 100
        else 0 in
      mkResult (Math_round finalScore) (length (matched acc))
               (length (Object_keys (tpl_keypoints template))) (missing acc)
  end.

(** *** [getPoseFeedback] *)

Definition upperBodyKeypoints : list string :=
  [ "left_shoulder"; "right_shoulder"; "left_elbow"; "right_elbow";
    "left_wrist"; "right_wrist" ]%string.

Definition lowerBodyKeypoints : list string :=
  [ "left_hip"; "right_hip"; "left_knee"; "right_knee" ]%string.

Definition msg_mastered : string := "Perfect! You've mastered this pose.".
Definition msg_very_close : string := "Great job! Your pose is very close to perfect.".
Definition msg_good_effort : string := "Good effort! Keep adjusting to improve your score.".
Definition msg_right_track : string :=
  "You're on the right track. Try to align your body more closely with the template.".
Definition msg_keep_practicing : string :=
  "Keep practicing! Try to match the pose template more closely.".
Definition msg_several_upper : string :=
  "Several key upper body parts aren't visible. Try adjusting your position.".
Definition msg_lower_body : string :=
  "For a complete pose, try to include your lower body in the frame if possible.".
Definition tip_front_double_biceps : string :=
  "Remember to keep your arms bent and biceps flexed. Face directly toward the camera.".
Definition tip_side_chest : string :=
  "Turn to the side more and bring your arm across your chest to emphasize your pectoral muscles.".
Definition tip_rear_lat_spread : string :=
  "Face away from the camera and spread your arms wider to showcase your back width.".
Definition tip_front_lat_spread : string :=
  "Spread your arms wider and push your lats out to create the illusion of a wider upper body.".
Definition tip_most_muscular : string :=
  "Bring your shoulders forward and flex all muscle groups simultaneously for maximum definition.".

(** The template literal of the missing upper body message. *)
Definition msg_make_sure (readableKeypoints : list string) : string :=
  ("Make sure your " +:+ join ", " readableKeypoints +:+ " are visible to the camera.")%string.

(** The five overall-score messages. *)
Definition overallMessages : list string :=
  [ msg_mastered; msg_very_close; msg_good_effort; msg_right_track;
    msg_keep_practicing ].

(** The five pose-specific tips. *)
Definition poseTips : list string :=
  [ tip_front_double_biceps; tip_side_chest; tip_rear_lat_spread;
    tip_front_lat_spread; tip_most_muscular ].

(** [feedback.push(m)]. *)
Definition push {A} (l : list A) (m : A) : list A := l ++ [m].

(** The [if]/[else if] chain on the overall score. *)
Definition overallFeedback (s : R) : string :=
  if js_ge s 95 then msg_mastered
  else if js_ge s 80 then msg_very_close
  else if js_ge s 60 then msg_good_effort
  else if js_ge s 40 then msg_right_track
  else msg_keep_practicing.

(** The block guarded by [scoreResult.missingKeypoints.length > 0]. *)
Definition missingFeedback (scoreResult : PoseScoreResult) (template : PoseTemplate)
    (feedback : list string) : list string :=
  if (0 <? length (missingKeypoints scoreResult))%nat then
    let missingUpperBodyKeypoints :=
      List.filter (includes upperBodyKeypoints) (missingKeypoints scoreResult) in
    let feedback :=
      if (0 <? length missingUpperBodyKeypoints)%nat then
        let readableKeypoints := map (replace_first "_"%char " "%char) missingUpperBodyKeypoints in
        if (length readableKeypoints <=? 3)%nat
        then push feedback (msg_make_sure readableKeypoints)
        else push feedback msg_several_upper
      else feedback in
    if String.eqb (tpl_id template) "front-double-biceps"
       || String.eqb (tpl_id template) "front-lat-spread" then
      let missingLowerBodyKeypoints :=
        List.filter (includes lowerBodyKeypoints) (missingKeypoints scoreResult) in
      if (0 <? length missingLowerBodyKeypoints)%nat && js_lt (score scoreResult) 70
      then push feedback msg_lower_body
      else feedback
    else feedback
  else feedback.

(** The [switch (template.id)]. *)
Definition poseSpecificFeedback (scoreResult : PoseScoreResult) (template : PoseTemplate)
    (feedback : list string) : list string :=
  let tip (m : string) :=
    if js_lt (score scoreResult) 70 then push feedback m else feedback in
  if String.eqb (tpl_id template) "front-double-biceps" then tip tip_front_double_biceps
  else if String.eqb (tpl_id template) "side-chest" then tip tip_side_chest
  else if String.eqb (tpl_id template) "rear-lat-spread" then tip tip_rear_lat_spread
  else if String.eqb (tpl_id template) "front-lat-spread" then tip tip_front_lat_spread
  else if String.eqb (tpl_id template) "most-muscular" then tip tip_most_muscular
  else feedback.

Definition getPoseFeedback (scoreResult : PoseScoreResult) (template : PoseTemplate)
  : list string :=
  let feedback := push [] (overallFeedback (score scoreResult)) in
  let feedback := missingFeedback scoreResult template feedback in
  poseSpecificFeedback scoreResult template feedback.

End poseScoring.

(** ** [usePoseDetection.ts]: [analyzePose] *)

Module usePoseDetection.

Inductive PoseMode := fitness | photography.

Inductive Severity := info | warning | error | success.

Record PoseFeedback := mkFeedback {
  message : string;
  severity : Severity;
  part : option string
}.

(** The argument of [setFeedback] is the result of [analyzePose]. *)

(** [kp.score && kp.score > 0.2]. *)
Definition confident (kp : Keypoint) : bool :=
  match kp_score kp with
  | Some s => truthy_number s && js_gt s 0.2
  | None => false
  end.

(** [new Map(keypoints.map(keypoint => [keypoint.name, keypoint]))]: the key
    may be [undefined], a later entry replaces an earlier one. *)
Definition keypointMap (keypoints : list Keypoint) : gmap (option string) Keypoint :=
  fold_left (fun m keypoint => <[kp_name keypoint := keypoint]> m) keypoints ∅.

(** The denominator and the slope every levelness check computes. *)
Definition slopeDivisor (l r : Keypoint) : R := Math_max 0.1 (kp_x r - kp_x l).

Definition slope (l r : Keypoint) : R :=
  Math_abs ((kp_y r - kp_y l) / slopeDivisor l r).

(** [feedbackItems] and [isPerfect]. *)
Record Checks := mkChecks {
  feedbackItems : list PoseFeedback;
  isPerfect : bool
}.

(** [feedbackItems.push(item); isPerfect = false]. *)
Definition report (c : Checks) (item : PoseFeedback) : Checks :=
  mkChecks (feedbackItems c ++ [item]) false.

(** [if (l && r) { if (slope > 0.1) { push; isPerfect = false } }]. *)
Definition checkLevel (l r : option Keypoint) (item : PoseFeedback) (c : Checks) : Checks :=
  match l, r with
  | Some l, Some r => if js_gt (slope l r) 0.1 then report c item else c
  | _, _ => c
  end.

Definition item_shoulders : PoseFeedback :=
  mkFeedback "Try to level your shoulders" info (Some "shoulders"%string).
Definition item_hips : PoseFeedback :=
  mkFeedback "Try to level your hips" info (Some "hips"%string).
Definition item_knees : PoseFeedback :=
  mkFeedback "Try to level your knees" info (Some "knees"%string).
Definition item_back : PoseFeedback :=
  mkFeedback "Try to align your shoulders over your hips" info (Some "back"%string).
Definition item_head : PoseFeedback :=
  mkFeedback "Try to level your head for a better pose" info (Some "head"%string).
Definition item_position : PoseFeedback :=
  mkFeedback "Try to center your face in the frame" info (Some "position"%string).
Definition item_photo_shoulders : PoseFeedback :=
  mkFeedback "Level your shoulders for a more balanced pose" info (Some "shoulders"%string).
Definition item_no_pose : PoseFeedback :=
  mkFeedback "No pose detected" info None.
Definition item_low_confidence : PoseFeedback :=
  mkFeedback "Move closer to the camera or adjust lighting" info None.
Definition item_show_more : PoseFeedback :=
  mkFeedback "Some keypoints detected. Try to show more of your body for better feedback."
             info None.

Definition item_perfect (m : string) : PoseFeedback := mkFeedback m success None.

Section Checks.
Variable getKeypoint : string → option Keypoint.

Definition hasUpperBody : bool :=
  bool_decide (is_Some (getKeypoint "left_shoulder"))
  && bool_decide (is_Some (getKeypoint "right_shoulder")).
Definition hasLowerBody : bool :=
  bool_decide (is_Some (getKeypoint "left_hip"))
  && bool_decide (is_Some (getKeypoint "right_hip")).
Definition hasFace : bool :=
  bool_decide (is_Some (getKeypoint "nose"))
  || (bool_decide (is_Some (getKeypoint "left_eye"))
      && bool_decide (is_Some (getKeypoint "right_eye"))).

(** The block [if (hasLowerBody)]: hips, then knees when both are seen. *)
Definition lowerBodyChecks (c : Checks) : Checks :=
  let c := checkLevel (getKeypoint "left_hip") (getKeypoint "right_hip") item_hips c in
  checkLevel (getKeypoint "left_knee") (getKeypoint "right_knee") item_knees c.

(** The block [if (hasUpperBody && hasLowerBody)]: shoulders over hips. *)
Definition backCheck (c : Checks) : Checks :=
  match getKeypoint "left_shoulder", getKeypoint "right_shoulder",
        getKeypoint "left_hip", getKeypoint "right_hip" with
  | Some leftShoulder, Some rightShoulder, Some leftHip, Some rightHip =>
      let shoulderCenter_x := (kp_x leftShoulder + kp_x rightShoulder) / 2 in
      let hipCenter_x := (kp_x leftHip + kp_x rightHip) / 2 in
      let verticalAlignment := Math_abs (shoulderCenter_x - hipCenter_x) in
      if js_gt verticalAlignment 0.1 then report c item_back else c
  | _, _, _, _ => c
  end.

(** The branch [mode === 'fitness']. *)
Definition fitnessChecks (c : Checks) : Checks :=
  let c :=
    if hasUpperBody
    then checkLevel (getKeypoint "left_shoulder") (getKeypoint "right_shoulder")
                    item_shoulders c
    else c in
  let c := if hasLowerBody then lowerBodyChecks c else c in
  if hasUpperBody && hasLowerBody then backCheck c else c.

(** The block [if (hasFace)]: eye line, then the nose against the centre. *)
Definition faceChecks (c : Checks) : Checks :=
  let c := checkLevel (getKeypoint "left_eye") (getKeypoint "right_eye") item_head c in
  match getKeypoint "nose" with
  | Some nose =>
      let centerX := 0.5 in
      let distanceFromCenter := Math_abs (kp_x nose - centerX) in
      if js_gt distanceFromCenter 0.2 then report c item_position else c
  | None => c
  end.

(** The branch [mode === 'photography']. *)
Definition photographyChecks (c : Checks) : Checks :=
  let c := if hasFace then faceChecks c else c in
  if hasUpperBody
  then checkLevel (getKeypoint "left_shoulder") (getKeypoint "right_shoulder")
                  item_photo_shoulders c
  else c.

(** The closing block: positive feedback when nothing was reported. *)
Definition positiveFeedback (mode : PoseMode) (c : Checks) : list PoseFeedback :=
  if (length (feedbackItems c) =? 0)%nat || isPerfect c then
    if hasUpperBody && hasLowerBody then
      feedbackItems c ++
        [item_perfect (match mode with
                       | fitness => "PERFECT! Your form is excellent!"
                       | photography => "PERFECT! Your pose looks amazing!"
                       end)]
    else if hasUpperBody then
      feedbackItems c ++
        [item_perfect (match mode with
                       | fitness => "PERFECT! Upper body form is excellent!"
                       | photography => "PERFECT! Upper body pose looks amazing!"
                       end)]
    else if hasFace then
      feedbackItems c ++ [item_perfect "PERFECT! Head position is excellent!"]
    else feedbackItems c ++ [item_show_more]
  else feedbackItems c.
End Checks.

Definition analyzePose (pose : Pose) (mode : PoseMode) : list PoseFeedback :=
  match pose_keypoints pose with
  | None => [item_no_pose]
  | Some all =>
      let keypoints := List.filter confident all in
      if (length keypoints <? 3)%nat then [item_low_confidence]
      else
        let getKeypoint := fun name : string => keypointMap keypoints !! Some name in
        let c := mkChecks [] true in
        let c :=
          match mode with
          | fitness => fitnessChecks getKeypoint c
          | photography => photographyChecks getKeypoint c
          end in
        positiveFeedback getKeypoint mode c
  end.

End usePoseDetection.

(** ** [poseScoring.ts]: [calculateAngle] and [analyzePoseForFeedback] *)

Module poseScoringGeneral.
Import usePoseDetection.

(** [Math.atan2 (y, x)]: the angle of the point [(x, y)], in [(-PI, PI]]. *)
Definition Math_atan2 (y x : R) : R :=
  if bool_decide (0 < x) then atan (y / x)
  else if bool_decide (x < 0) then
    if bool_decide (0 <= y) then atan (y / x) + PI else atan (y / x) - PI
  else if bool_decide (0 < y) then PI / 2
  else if bool_decide (y < 0) then - (PI / 2)
  else 0.

Definition Math_PI : R := PI.

Definition calculateAngle (a b c : Point) : R :=
  let radians :=
    Math_atan2 (pt_y c - pt_y b) (pt_x c - pt_x b)
    - Math_atan2 (pt_y a - pt_y b) (pt_x a - pt_x b) in
  let angle := Math_abs (radians * 180.0 / Math_PI) in
  if js_gt angle 180 then 360 - angle else angle.

(** The items of [analyzePoseForFeedback]: [part] is always given. *)
Record PartFeedback := mkPart {
  pf_part : string;
  pf_message : string;
  pf_severity : Severity
}.

Definition essentialKeypoints : list string :=
  [ "nose"; "left_eye"; "right_eye"; "left_ear"; "right_ear";
    "left_shoulder"; "right_shoulder"; "left_elbow"; "right_elbow" ]%string.

(** The template literal of the warning about missing parts. *)
Definition msg_not_visible (readableKeypoints : list string) : string :=
  ("Some key upper body parts aren't visible: " +:+ join ", " readableKeypoints)%string.

Definition item_shoulders_level : PartFeedback :=
  mkPart "left_shoulder" "Try to keep your shoulders level" warning.
Definition item_shoulders_great : PartFeedback :=
  mkPart "left_shoulder" "Great shoulder alignment!" success.
Definition item_head_align : PartFeedback :=
  mkPart "nose" "Try to align your head with your shoulders for better posture" info.

(** The block on the essential keypoints; [missingEssentialKeypoints[0]] is
    read where the list has been found non-empty. *)
Definition essentialFeedback (keypointMap : gmap string Keypoint)
    (feedback : list PartFeedback) : list PartFeedback :=
  let missingEssentialKeypoints :=
    List.filter (fun kp => negb (bool_decide (is_Some (keypointMap !! kp))))
                essentialKeypoints in
  match missingEssentialKeypoints with
  | first :: _ =>
      let readableKeypoints :=
        map (replace_first "_"%char " "%char) missingEssentialKeypoints in
      poseScoring.push feedback (mkPart first (msg_not_visible readableKeypoints) warning)
  | [] => feedback
  end.

(** The block on the shoulder alignment. *)
Definition shoulderFeedback (keypointMap : gmap string Keypoint)
    (feedback : list PartFeedback) : list PartFeedback :=
  match keypointMap !! "left_shoulder"%string, keypointMap !! "right_shoulder"%string with
  | Some leftShoulder, Some rightShoulder =>
      let shoulderDiff := Math_abs (kp_y leftShoulder - kp_y rightShoulder) in
      if js_gt shoulderDiff 30 then poseScoring.push feedback item_shoulders_level
      else if js_lt shoulderDiff 10 then poseScoring.push feedback item_shoulders_great
      else feedback
  | _, _ => feedback
  end.

(** The block on the posture of the head. *)
Definition headFeedback (keypointMap : gmap string Keypoint)
    (feedback : list PartFeedback) : list PartFeedback :=
  match keypointMap !! "nose"%string, keypointMap !! "left_shoulder"%string,
        keypointMap !! "right_shoulder"%string with
  | Some nose, Some leftShoulder2, Some rightShoulder2 =>
      let shoulderMidX := (kp_x leftShoulder2 + kp_x rightShoulder2) / 2 in
      let horizontalDiff := Math_abs (kp_x nose - shoulderMidX) in
      if js_gt horizontalDiff 30 then poseScoring.push feedback item_head_align
      else feedback
  | _, _, _ => feedback
  end.

Definition analyzePoseForFeedback (pose : Pose) : list PartFeedback :=
  match pose_keypoints pose with
  | None | Some [] => []
  | Some keypoints =>
      let keypointMap := poseScoring.keypointMap keypoints in
      let feedback := essentialFeedback keypointMap [] in
      let feedback := shoulderFeedback keypointMap feedback in
      headFeedback keypointMap feedback
  end.

End poseScoringGeneral.

(** ** [usePoseDetection.ts], the scoring variant: [scorePoseAgainstTemplate] *)

Module usePoseDetectionScore.
Import poseScoring.

Definition msg_no_pose : string :=
  "No pose detected. Please make sure you're visible in the camera frame.".

(** What [scorePoseAgainstTemplate] stores in [poseScore] and
    [scoreFeedback] once the detector has returned [poses]: the first pose
    is scored, and without a pose the default score and message are set. *)
Definition scorePoseAgainstTemplate (poses : list Pose) (template : PoseTemplate)
    (videoWidth videoHeight : R) : PoseScoreResult * list string :=
  match poses with
  | pose0 :: _ =>
      let scoreResult := scorePose pose0 template videoWidth videoHeight in
      let feedback := getPoseFeedback scoreResult template in
      (scoreResult, feedback)
  | [] =>
      let defaultScore :=
        mkResult 0 0 (length (Object_keys (tpl_keypoints template)))
                 (Object_keys (tpl_keypoints template)) in
      let defaultFeedback := [msg_no_pose] in
      (defaultScore, defaultFeedback)
  end.

End usePoseDetectionScore.

(** ** The score as the specification states it *)

Module ScoreSpec.
Import poseScoring.

(** The sum of a list of numbers. *)
Definition Rsum (l : list R) : R := fold_right Rplus 0 l.

(** The detected keypoint set of a pose: its keypoints that have a name and
    a confidence above 0.3, by name; empty when the pose has no keypoints. *)
Definition detected (pose : Pose) : gmap string Keypoint :=
  match pose_keypoints pose with
  | Some keypoints => keypointMap keypoints
  | None => ∅
  end.

(** The fixed weight table, by body part. *)
Definition spec_weight (part : string) : R :=
  if includes [ "left_shoulder"; "right_shoulder"; "left_elbow"; "right_elbow";
                "left_wrist"; "right_wrist" ]%string part then 1.5
  else if includes [ "nose" ]%string part then 1.0
  else if includes [ "left_eye"; "right_eye" ]%string part then 0.8
  else if includes [ "left_ear"; "right_ear" ]%string part then 0.7
  else if includes [ "left_hip"; "right_hip" ]%string part then 0.8
  else if includes [ "left_knee"; "right_knee" ]%string part then 0.6
  else if includes [ "left_ankle"; "right_ankle" ]%string part then 0.4
  else 1.0.





(** The contribution of one template part to [totalScore], as the loop body
    computes it. *)
Definition partScore (D : gmap string Keypoint) (w h : R) (e : string * Point)
  : option R :=
  k ← D !! e.1;
  Some (Math_max 0 (1 - distance e.2 k w h * 5) * weightOf e.1).

(** Whether a template part is in the detected set. *)
Definition isMatched (D : gmap string Keypoint) (part : string) : bool :=
  match D !! part with Some _ => true | None => false end.

(** A keypoint the scorer keeps: it has a name and a confidence above 0.3. *)
Definition usable (k : Keypoint) : Prop :=
  ∃ n s, kp_name k = Some n ∧ n ≠ ""%string ∧ kp_score k = Some s ∧ 0.3 < s.

(** The pose has no keypoints at all, or none of them is usable. *)
Definition nothingDetected (pose : Pose) : Prop :=
  match pose_keypoints pose with
  | None => True
  | Some keypoints => Forall (fun k => ¬ usable k) keypoints
  end.

End ScoreSpec.

(** ** The messages of [getPoseFeedback], classified *)

Module FeedbackSpec.
Import poseScoring.

(** The messages the block on missing keypoints can add, with the condition
    under which the lower body hint is among them. *)
Inductive missingMessage (scoreResult : PoseScoreResult) (template : PoseTemplate)
  : string → Prop :=
| mm_make_sure l : missingMessage scoreResult template (msg_make_sure l)
| mm_several : missingMessage scoreResult template msg_several_upper
| mm_lower :
    tpl_id template = "front-double-biceps"%string
    ∨ tpl_id template = "front-lat-spread"%string →
    score scoreResult < 70 →
    missingMessage scoreResult template msg_lower_body.

End FeedbackSpec.

(** ** The rule based checks, as the specification words them *)

Module AnalyzeSpec.
Import usePoseDetection.

(** A keypoint whose confidence is strictly above [c]. *)
Definition confidenceAbove (c : R) (k : Keypoint) : bool :=
  match kp_score k with
  | Some s => bool_decide (c < s)
  | None => false
  end.

(** The absolute slope of the line from [l] to [r]. *)
Definition spec_slope (l r : Keypoint) : R :=
  Rabs ((kp_y r - kp_y l) / (kp_x r - kp_x l)).

(** The keypoint the checks read under [name]. *)
Definition seen (pose : Pose) (name : string) : option Keypoint :=
  all ← pose_keypoints pose;
  keypointMap (List.filter confident all) !! Some name.

(** The messages of the geometric checks. *)
Definition checkItems : list PoseFeedback :=
  [ item_shoulders; item_hips; item_knees; item_back;
    item_head; item_position; item_photo_shoulders ].

End AnalyzeSpec.

(** ** Sample inputs *)

Module Samples.

(** A 640 by 480 frame; the left shoulder of [side_chest] is then at
    (256, 120). *)
Definition left_shoulder_at (x y confidence : R) : Keypoint :=
  mkKeypoint x y (Some confidence) (Some "left_shoulder"%string).

Definition pose_on_target : Pose := mkPose (Some [left_shoulder_at 256 120 0.9]).
Definition pose_off_target : Pose := mkPose (Some [left_shoulder_at 288 120 0.9]).
Definition pose_dim : Pose := mkPose (Some [left_shoulder_at 256 120 0.2]).

(** Shoulders 100 apart in x, with a nose as third keypoint: level at
    y = 100, and tilted with the right shoulder at y = 140. *)
Definition named (name : string) (x y : R) : Keypoint :=
  mkKeypoint x y (Some 0.9) (Some name).

Definition pose_level : Pose :=
  mkPose (Some [ named "left_shoulder" 100 100; named "right_shoulder" 200 100;
                 named "nose" 150 50 ]).

Definition pose_tilted : Pose :=
  mkPose (Some [ named "left_shoulder" 100 100; named "right_shoulder" 200 140;
                 named "nose" 150 50 ]).

(** Shoulders one above the other (same x). *)
Definition pose_stacked : Pose :=
  mkPose (Some [ named "left_shoulder" 100 100; named "right_shoulder" 100 140;
                 named "nose" 150 50 ]).

(** The right shoulder to the left of the left one, 5 lower. *)
Definition pose_mirrored : Pose :=
  mkPose (Some [ named "left_shoulder" 200 100; named "right_shoulder" 100 105;
                 named "nose" 150 50 ]).

(** A pose without keypoints. *)
Definition pose_none : Pose := mkPose (Some []).

End Samples.

(** ** Resizing a pose *)

Module Resize.



End Resize.

(** ** More sample inputs *)

Module MoreSamples.
Import Samples.

(** [pose_on_target] with an ankle, which [side_chest] does not name. *)
Definition pose_with_ankle : Pose :=
  mkPose (Some [ left_shoulder_at 256 120 0.9;
                 mkKeypoint 300 460 (Some 0.9) (Some "left_ankle"%string) ]).

(** A template of one part, and poses that hit it, miss it by 0.25 of the
    frame width, and do not show it. *)
Definition one_part : PoseTemplate :=
  mkTemplate "one-part" "One part" "" "" [ ("nose"%string, mkPoint 0.5 0.5) ].

Definition nose_at (x y : R) : Keypoint :=
  mkKeypoint x y (Some 0.9) (Some "nose"%string).

Definition pose_hit : Pose := mkPose (Some [nose_at 320 240]).
Definition pose_miss : Pose := mkPose (Some [nose_at 480 240]).
Definition pose_elsewhere : Pose :=
  mkPose (Some [mkKeypoint 10 10 (Some 0.9) (Some "left_ear"%string)]).

End MoreSamples.

(** ** The four parts of the feedback list *)

Module FeedbackParts.
Import poseScoring.

(** The missing entries that are upper body names, and those that are lower
    body names. *)
Definition missingUpper (r : PoseScoreResult) : list string :=
  List.filter (includes upperBodyKeypoints) (missingKeypoints r).

Definition missingLower (r : PoseScoreResult) : list string :=
  List.filter (includes lowerBodyKeypoints) (missingKeypoints r).

(** The message about missing upper body parts, if any. *)
Definition upperPart (r : PoseScoreResult) : list string :=
  match missingUpper r with
  | [] => []
  | _ :: _ =>
      if (length (missingUpper r) <=? 3)%nat
      then [msg_make_sure (map (replace_first "_"%char " "%char) (missingUpper r))]
      else [msg_several_upper]
  end.

(** The two full body poses. *)
Definition fullBody (t : PoseTemplate) : bool :=
  String.eqb (tpl_id t) "front-double-biceps"
  || String.eqb (tpl_id t) "front-lat-spread".

(** The lower body hint, if any. *)
Definition lowerPart (r : PoseScoreResult) (t : PoseTemplate) : list string :=
  match missingLower r with
  | [] => []
  | _ :: _ => if fullBody t && js_lt (score r) 70 then [msg_lower_body] else []
  end.

(** The tip of a template id. *)
Definition tipOf (id : string) : option string :=
  if String.eqb id "front-double-biceps" then Some tip_front_double_biceps
  else if String.eqb id "side-chest" then Some tip_side_chest
  else if String.eqb id "rear-lat-spread" then Some tip_rear_lat_spread
  else if String.eqb id "front-lat-spread" then Some tip_front_lat_spread
  else if String.eqb id "most-muscular" then Some tip_most_muscular
  else None.

(** The pose-specific tip, if any. *)
Definition tipPart (r : PoseScoreResult) (t : PoseTemplate) : list string :=
  match tipOf (tpl_id t) with
  | Some m => if js_lt (score r) 70 then [m] else []
  | None => []
  end.

End FeedbackParts.

(** ** The report of the geometric checks *)

Module AnalyzeReport.
Import usePoseDetection.

(** [[item]] when the condition holds, nothing otherwise. *)
Definition opt (b : bool) (item : PoseFeedback) : list PoseFeedback :=
  if b then [item] else [].

(** A check that reports [item] when [b] holds. *)
Definition runs (c : Checks) (b : bool) (item : PoseFeedback) : Checks :=
  if b then report c item else c.

Section Conditions.
Variable getKeypoint : string → option Keypoint.

(** Both keypoints are seen and their clamped slope exceeds 0.1. *)
Definition tilted (a b : string) : bool :=
  match getKeypoint a, getKeypoint b with
  | Some l, Some r => js_gt (slope l r) 0.1
  | _, _ => false
  end.

(** Shoulders and hips are seen and their midpoints are more than 0.1 apart
    in x. *)
Definition leaning : bool :=
  match getKeypoint "left_shoulder", getKeypoint "right_shoulder",
        getKeypoint "left_hip", getKeypoint "right_hip" with
  | Some ls, Some rs, Some lh, Some rh =>
      js_gt (Math_abs ((kp_x ls + kp_x rs) / 2 - (kp_x lh + kp_x rh) / 2)) 0.1
  | _, _, _, _ => false
  end.

(** The nose is seen, more than 0.2 from x = 0.5. *)
Definition offCentre : bool :=
  match getKeypoint "nose" with
  | Some nose => js_gt (Math_abs (kp_x nose - 0.5)) 0.2
  | None => false
  end.

(** What the checks of a mode report, in order. *)
Definition reportOf (mode : PoseMode) : list PoseFeedback :=
  match mode with
  | fitness =>
      opt (tilted "left_shoulder" "right_shoulder") item_shoulders
      ++ opt (tilted "left_hip" "right_hip") item_hips
      ++ opt (hasLowerBody getKeypoint && tilted "left_knee" "right_knee") item_knees
      ++ opt leaning item_back
  | photography =>
      opt (tilted "left_eye" "right_eye") item_head
      ++ opt offCentre item_position
      ++ opt (tilted "left_shoulder" "right_shoulder") item_photo_shoulders
  end.

(** The message that closes a list without reports. *)
Definition closingItem (mode : PoseMode) : PoseFeedback :=
  if hasUpperBody getKeypoint && hasLowerBody getKeypoint then
    item_perfect (match mode with
                  | fitness => "PERFECT! Your form is excellent!"
                  | photography => "PERFECT! Your pose looks amazing!"
                  end)
  else if hasUpperBody getKeypoint then
    item_perfect (match mode with
                  | fitness => "PERFECT! Upper body form is excellent!"
                  | photography => "PERFECT! Upper body pose looks amazing!"
                  end)
  else if hasFace getKeypoint then item_perfect "PERFECT! Head position is excellent!"
  else item_show_more.

End Conditions.

(** The check items of a mode, in the order of the checks. *)
Definition modeItems (mode : PoseMode) : list PoseFeedback :=
  match mode with
  | fitness => [item_shoulders; item_hips; item_knees; item_back]
  | photography => [item_head; item_position; item_photo_shoulders]
  end.

End AnalyzeReport.

(** ** Moving three points together *)

Module Similar.

(** The point scaled by [s] and shifted by [(dx, dy)]. *)
Definition movePoint (s dx dy : R) (p : Point) : Point :=
  mkPoint (s * pt_x p + dx) (s * pt_y p + dy).

End Similar.

(** * Properties *)

(** ** Numbers *)

Section Numbers.

Lemma js_gt_spec (a b : R) : js_gt a b = true ↔ b < a.
Proof. unfold js_gt. apply bool_decide_eq_true. Qed.

Lemma js_ge_spec (a b : R) : js_ge a b = true ↔ b <= a.
Proof. unfold js_ge. apply bool_decide_eq_true. Qed.

Lemma js_lt_spec (a b : R) : js_lt a b = true ↔ a < b.
Proof. unfold js_lt. apply bool_decide_eq_true. Qed.

Lemma Math_round_IZR (z : Z) : Math_round (IZR z) = IZR z.
Proof.
  unfold Math_round. f_equal. apply Zfloor_eq. lra.
Qed.

Lemma Math_round_0 : Math_round 0 = 0.
Proof. exact (Math_round_IZR 0). Qed.

Lemma Math_round_mono (a b : R) : a <= b → Math_round a <= Math_round b.
Proof.
  intros Hab. unfold Math_round. apply IZR_le, Zfloor_le. lra.
Qed.

Lemma Math_round_range (v : R) (lo hi : Z) :
  IZR lo <= v <= IZR hi → IZR lo <= Math_round v <= IZR hi.
Proof.
  intros [Hlo Hhi]. rewrite <- (Math_round_IZR lo), <- (Math_round_IZR hi).
  split; apply Math_round_mono; assumption.
Qed.

Lemma Math_max_0_unit (d : R) : 0 <= d → 0 <= Math_max 0 (1 - d * 5) <= 1.
Proof.
  intros Hd. unfold Math_max. split; [apply Rmax_l|].
  apply Rmax_lub; lra.
Qed.


End Numbers.

(** ** The weight table *)

Import poseScoring ScoreSpec FeedbackSpec.

Section Weights.

Lemma includes_nil (s : string) : includes [] s = false.
Proof. unfold includes. apply bool_decide_eq_false. apply not_elem_of_nil. Qed.

Lemma includes_cons (a : string) (l : list string) (s : string) :
  includes (a :: l) s = String.eqb a s || includes l s.
Proof.
  unfold includes. destruct (String.eqb_spec a s) as [->|Hne]; simpl.
  - apply bool_decide_eq_true. left.
  - apply bool_decide_ext. rewrite elem_of_cons. intuition congruence.
Qed.

(** The table read with [|| 1.0] is the table of the specification. *)
Lemma weightOf_spec (part : string) : weightOf part = spec_weight part.
Proof.
  unfold weightOf, spec_weight, table_get, keypointWeights.
  rewrite !includes_cons, !includes_nil.
  cbn [List.find fst snd].
  repeat match goal with
         | |- context [String.eqb ?a part] =>
             destruct (String.eqb_spec a part) as [<-|_];
             [ cbn; unfold truthy_number; case_bool_decide; lra | cbv beta iota ]
         end.
  reflexivity.
Qed.

Lemma spec_weight_pos (part : string) : 0 < spec_weight part.
Proof.
  unfold spec_weight. repeat (destruct (includes _ part); [lra|]). lra.
Qed.

Lemma weightOf_pos (part : string) : 0 < weightOf part.
Proof. rewrite weightOf_spec. apply spec_weight_pos. Qed.

End Weights.

(** ** The loop of [scorePose] *)

Section Loop.
Variable D : gmap string Keypoint.
Variables imageWidth imageHeight : R.

Let step := scoreStep D imageWidth imageHeight.

(** What the four accumulators hold after the loop has run over [l]. *)
Lemma scoreStep_fold (l : list (string * Point)) (acc : Acc) :
  fold_left step l acc =
  mkAcc (totalScore acc + Rsum (omap (partScore D imageWidth imageHeight) l))
        (totalWeight acc + Rsum (map (fun e => weightOf e.1) l))
        (matched acc ++ List.filter (isMatched D) (Object_keys l))
        (missing acc ++ List.filter (fun n => negb (isMatched D n)) (Object_keys l)).
Proof.
  revert acc. induction l as [|[n target] l IH]; intros acc.
  - cbn. rewrite !app_nil_r. destruct acc; cbn. f_equal; lra.
  - cbn [fold_left]. rewrite IH. clear IH.
    unfold step, scoreStep, Object_keys, partScore, isMatched, Rsum.
    cbn [fst snd fmap list_fmap List.filter omap list_omap map fold_right].
    destruct (D !! n) as [k|];
      cbn [mbind option_bind negb totalScore totalWeight matched missing fold_right];
      rewrite <- ?app_assoc; cbn [app]; f_equal; lra.
Qed.

Lemma partScore_bounds (e : string * Point) (v : R) :
  partScore D imageWidth imageHeight e = Some v → 0 <= v <= weightOf e.1.
Proof.
  unfold partScore. destruct (D !! e.1) as [k|]; cbn; [|discriminate].
  intros [= <-].
  pose proof (weightOf_pos e.1) as Hw.
  assert (0 <= distance e.2 k imageWidth imageHeight) as Hd
    by (unfold distance, Math_sqrt; apply sqrt_pos).
  destruct (Math_max_0_unit _ Hd) as [H0 H1]. nra.
Qed.

(** [totalScore] never exceeds [totalWeight]. *)
Lemma totalScore_bounds (l : list (string * Point)) :
  0 <= Rsum (omap (partScore D imageWidth imageHeight) l)
    <= Rsum (map (fun e => weightOf e.1) l).
Proof.
  unfold Rsum.
  induction l as [|e l IH]; cbn [omap list_omap map fold_right]; [lra|].
  pose proof (weightOf_pos e.1) as Hw.
  destruct (partScore D imageWidth imageHeight e) as [v|] eqn:E;
    cbn [fold_right].
  - apply partScore_bounds in E. lra.
  - lra.
Qed.

End Loop.

(** ** The detected keypoint set *)

Section Detected.

Lemma keypointMap_add_usable (m : gmap string Keypoint) (k : Keypoint)
    (n : string) (s : R) :
  kp_name k = Some n → n ≠ ""%string → kp_score k = Some s → 0.3 < s →
  keypointMap_add m k = <[n := k]> m.
Proof.
  intros Hn Hne Hs Hlt. unfold keypointMap_add. rewrite Hn, Hs.
  unfold truthy_string, truthy_number, js_gt.
  rewrite !bool_decide_eq_true_2; [reflexivity|lra|lra|assumption].
Qed.

Lemma keypointMap_add_unusable (m : gmap string Keypoint) (k : Keypoint) :
  ¬ usable k → keypointMap_add m k = m.
Proof.
  intros Hk. unfold keypointMap_add.
  destruct (kp_name k) as [n|] eqn:Hn; [|reflexivity].
  destruct (kp_score k) as [s|] eqn:Hs; [|reflexivity].
  unfold truthy_string, truthy_number, js_gt.
  repeat case_bool_decide; cbn; try reflexivity.
  exfalso. apply Hk. exists n, s. auto.
Qed.

Lemma keypointMap_unusable (keypoints : list Keypoint) :
  Forall (fun k => ¬ usable k) keypoints → keypointMap keypoints = ∅.
Proof.
  unfold keypointMap. generalize (∅ : gmap string Keypoint) as m.
  induction keypoints as [|k ks IH]; intros m Hall; [reflexivity|].
  inversion Hall as [|? ? Hk Hks]; subst. cbn [fold_left].
  rewrite keypointMap_add_unusable by assumption. apply IH, Hks.
Qed.

Lemma keypointMap_snoc (keypoints : list Keypoint) (k : Keypoint) :
  keypointMap (keypoints ++ [k]) = keypointMap_add (keypointMap keypoints) k.
Proof. unfold keypointMap. now rewrite fold_left_app. Qed.

Lemma keypointMap_add_lookup (m : gmap string Keypoint) (k0 k : Keypoint) (n : string) :
  keypointMap_add m k0 !! n = Some k →
  (k = k0 ∧ usable k0 ∧ kp_name k0 = Some n) ∨ m !! n = Some k.
Proof.
  unfold keypointMap_add.
  destruct (kp_name k0) as [n0|] eqn:Hn; [|auto].
  destruct (kp_score k0) as [s|] eqn:Hs; [|auto].
  destruct (truthy_string n0 && truthy_number s && js_gt s 0.3) eqn:E; [|auto].
  apply andb_prop in E as [E Hgt]. apply andb_prop in E as [Hne _].
  apply bool_decide_eq_true in Hne. apply js_gt_spec in Hgt.
  destruct (decide (n0 = n)) as [->|Hd].
  - rewrite lookup_insert_eq. intros [= <-]. left.
    split; [reflexivity|]. split; [|reflexivity]. exists n, s. auto.
  - rewrite lookup_insert_ne by assumption. auto.
Qed.

Lemma keypointMap_add_mono (m : gmap string Keypoint) (k0 : Keypoint) (n : string) :
  is_Some (m !! n) → is_Some (keypointMap_add m k0 !! n).
Proof.
  intros Hm. unfold keypointMap_add.
  destruct (kp_name k0) as [n0|]; [|assumption].
  destruct (kp_score k0) as [s|]; [|assumption].
  destruct (_ && _); [|assumption].
  rewrite lookup_insert. case_decide; eauto.
Qed.

(** An entry of the detected set is a usable keypoint of the pose, stored
    under its own name. *)
Lemma keypointMap_sound (keypoints : list Keypoint) (n : string) (k : Keypoint) :
  keypointMap keypoints !! n = Some k →
  k ∈ keypoints ∧ usable k ∧ kp_name k = Some n.
Proof.
  induction keypoints as [|k0 ks IH] using rev_ind.
  - unfold keypointMap. cbn. now rewrite lookup_empty.
  - rewrite keypointMap_snoc. intros [(-> & Hu & Hn)|H]%keypointMap_add_lookup.
    + split; [|auto]. apply elem_of_app. right. left.
    + destruct (IH H) as (Hin & Hu & Hn). split; [|auto].
      apply elem_of_app. now left.
Qed.

(** Every usable keypoint of the pose has its name in the detected set. *)
Lemma keypointMap_complete (keypoints : list Keypoint) (n : string) (k : Keypoint) :
  k ∈ keypoints → usable k → kp_name k = Some n →
  is_Some (keypointMap keypoints !! n).
Proof.
  induction keypoints as [|k0 ks IH] using rev_ind; intros Hin Hu Hn.
  - now apply elem_of_nil in Hin.
  - rewrite keypointMap_snoc. apply elem_of_app in Hin as [Hin|Hin].
    + apply keypointMap_add_mono. now apply IH.
    + apply list_elem_of_singleton in Hin as ->.
      destruct Hu as (n0 & s0 & H1 & H2 & H3 & H4).
      rewrite (keypointMap_add_usable _ _ _ _ H1 H2 H3 H4).
      assert (n0 = n) as -> by congruence. rewrite lookup_insert_eq. eauto.
Qed.

Lemma nothingDetected_empty (pose : Pose) :
  nothingDetected pose → detected pose = ∅.
Proof.
  unfold nothingDetected, detected.
  destruct (pose_keypoints pose); [apply keypointMap_unusable|reflexivity].
Qed.

Lemma isMatched_empty (l : list string) :
  List.filter (isMatched ∅) l = []
  ∧ List.filter (fun n => negb (isMatched ∅ n)) l = l.
Proof.
  unfold isMatched. induction l as [|n l [IH1 IH2]]; [easy|].
  cbn [List.filter]. rewrite lookup_empty. cbn. rewrite IH1, IH2. easy.
Qed.

Lemma partScore_empty (w h : R) (l : list (string * Point)) :
  omap (partScore ∅ w h) l = [].
Proof.
  induction l as [|e l IH]; [reflexivity|].
  cbn [omap list_omap]. unfold partScore at 1. rewrite lookup_empty. exact IH.
Qed.

End Detected.

(** ** [scorePose] in closed form *)

Section ScorePose.
Variable pose : Pose.
Variable template : PoseTemplate.
Variables imageWidth imageHeight : R.

Let r := scorePose pose template imageWidth imageHeight.
Let D := detected pose.
Let names := Object_keys (tpl_keypoints template).
Let ts := Rsum (omap (partScore D imageWidth imageHeight) (tpl_keypoints template)).
Let tw := Rsum (map (fun e => weightOf e.1) (tpl_keypoints template)).

Lemma scorePose_missing :
  missingKeypoints r = List.filter (fun n => negb (isMatched D n)) names.
Proof.
  subst r D names. unfold scorePose, detected, scoreLoop.
  destruct (pose_keypoints pose) as [[|k ks]|].
  - symmetry. apply isMatched_empty.
  - rewrite scoreStep_fold. reflexivity.
  - symmetry. apply isMatched_empty.
Qed.

Lemma scorePose_matched :
  matchedKeypoints r = length (List.filter (isMatched D) names).
Proof.
  subst r D names. unfold scorePose, detected, scoreLoop.
  destruct (pose_keypoints pose) as [[|k ks]|].
  - cbn. now rewrite (proj1 (isMatched_empty _)).
  - rewrite scoreStep_fold. reflexivity.
  - cbn. now rewrite (proj1 (isMatched_empty _)).
Qed.

Lemma scorePose_total : totalKeypoints r = length names.
Proof.
  subst r names. unfold scorePose.
  destruct (pose_keypoints pose) as [[|k ks]|]; reflexivity.
Qed.

Lemma scorePose_score :
  score r = Math_round (if js_gt tw 0 then ts / tw * 100 else 0).
Proof.
  assert (Hempty : D = ∅ → score r = 0 →
            score r = Math_round (if js_gt tw 0 then ts / tw * 100 else 0)).
  { intros HD ->. subst ts. rewrite HD, partScore_empty. cbn [Rsum fold_right].
    destruct (js_gt tw 0); rewrite <- Math_round_0 at 1; f_equal.
    unfold Rdiv. ring. }
  subst r D ts tw. unfold scorePose, detected, scoreLoop in *.
  destruct (pose_keypoints pose) as [[|k ks]|]; try (apply Hempty; reflexivity).
  rewrite scoreStep_fold. cbn [score totalScore totalWeight].
  rewrite !Rplus_0_l. reflexivity.
Qed.

Lemma finalScore_range :
  0 <= (if js_gt tw 0 then ts / tw * 100 else 0) <= 100.
Proof.
  destruct (js_gt tw 0) eqn:E; [|lra].
  apply js_gt_spec in E.
  destruct (totalScore_bounds D imageWidth imageHeight (tpl_keypoints template))
    as [H0 H1].
  fold ts tw in H0, H1.
  pose proof (Rinv_0_lt_compat tw E) as Hi.
  assert (tw * / tw = 1) as Hone by (apply Rinv_r; lra).
  unfold Rdiv. nra.
Qed.

End ScorePose.

(** ** The score formula *)

Section Formula.
Variable D : gmap string Keypoint.
Variables w h : R.




End Formula.



(** ** Matched and missing parts *)

Lemma filter_split_perm {A} (f : A → bool) (l : list A) :
  List.filter f l ++ List.filter (fun a => negb (f a)) l ≡ₚ l.
Proof.
  induction l as [|a l IH]; [reflexivity|].
  cbn [List.filter]. destruct (f a); cbn [negb app].
  - now constructor.
  - rewrite <- Permutation_middle. now constructor.
Qed.

(** C2.  The result of [scorePose] counts every template part once:
    [matchedKeypoints + |missingKeypoints| = totalKeypoints], which is the
    number of keys of [template.keypoints]; the matched names are the keys in
    the detected set, the missing names the other keys, and together they
    are the keys of the template. *)
Theorem scorePose_counts (pose : Pose) (template : PoseTemplate) (w h : R) :
  let r := scorePose pose template w h in
  let names := Object_keys (tpl_keypoints template) in
  (matchedKeypoints r + length (missingKeypoints r) = totalKeypoints r)%nat
  ∧ totalKeypoints r = length names
  ∧ matchedKeypoints r = length (List.filter (isMatched (detected pose)) names)
  ∧ missingKeypoints r = List.filter (fun n => negb (isMatched (detected pose) n)) names
  ∧ List.filter (isMatched (detected pose)) names ++ missingKeypoints r ≡ₚ names.
Proof.
  intros r names. subst r names.
  rewrite scorePose_missing, scorePose_matched, scorePose_total.
  pose proof (filter_split_perm (isMatched (detected pose))
                (Object_keys (tpl_keypoints template))) as Hp.
  repeat split; try assumption.
  rewrite <- length_app. now apply Permutation_length.
Qed.

(** C3.  When nothing is detected (the pose has no keypoints, or none with
    both a name and a confidence above 0.3) [scorePose] returns score 0, no
    matched part, the number of template parts as total, and every template
    part as missing, in the order of the template. *)
Theorem scorePose_nothing_detected (pose : Pose) (template : PoseTemplate) (w h : R) :
  nothingDetected pose →
  scorePose pose template w h
  = mkResult 0 0 (length (Object_keys (tpl_keypoints template)))
             (Object_keys (tpl_keypoints template)).
Proof.
  intros HD%nothingDetected_empty.
  pose proof (scorePose_missing pose template w h) as Hmiss.
  pose proof (scorePose_matched pose template w h) as Hmat.
  pose proof (scorePose_total pose template w h) as Htot.
  pose proof (scorePose_score pose template w h) as Hsc.
  rewrite HD in *. rewrite partScore_empty in Hsc.
  destruct (isMatched_empty (Object_keys (tpl_keypoints template))) as [E1 E2].
  rewrite E1 in Hmat. rewrite E2 in Hmiss.
  destruct (scorePose pose template w h) as [s m t ms]. cbn in *. subst m t ms.
  f_equal. rewrite Hsc. transitivity (Math_round 0); [f_equal|apply Math_round_0].
  destruct (js_gt _ 0); unfold Rdiv; ring.
Qed.

Lemma scorePose_nothing_detected_witness :
  nothingDetected Samples.pose_dim ∧
  scorePose Samples.pose_dim side_chest 640 480
  = mkResult 0 0 10
      [ "left_shoulder"; "right_shoulder"; "left_elbow"; "right_elbow";
        "left_wrist"; "right_wrist"; "left_hip"; "right_hip";
        "left_knee"; "right_knee" ]%string.
Proof.
  assert (nothingDetected Samples.pose_dim) as Hd.
  { repeat constructor. intros (n & s & _ & _ & [= <-] & Hlt). lra. }
  split; [exact Hd|].
  exact (scorePose_nothing_detected Samples.pose_dim side_chest 640 480 Hd).
Defined.

(** C4.  For positive frame dimensions the score lies in [0, 100]. *)
Theorem scorePose_score_range (pose : Pose) (template : PoseTemplate) (w h : R) :
  0 < w → 0 < h → 0 <= score (scorePose pose template w h) <= 100.
Proof.
  intros _ _. rewrite scorePose_score.
  apply (Math_round_range _ 0 100), finalScore_range.
Qed.

Lemma scorePose_score_range_witness :
  0 < 640 ∧ 0 < 480 ∧
  0 <= score (scorePose Samples.pose_off_target side_chest 640 480) <= 100.
Proof.
  split; [lra|]. split; [lra|].
  apply (scorePose_score_range Samples.pose_off_target side_chest 640 480); lra.
Defined.

(** ** Monotonicity in the distance of one part *)

Section Monotone.
Variable D : gmap string Keypoint.
Variables w h : R.
Variable part : string.
Variables k1 k2 : Keypoint.
Hypothesis Hk1 : D !! part = Some k1.

Lemma totalScore_cons (M : gmap string Keypoint) (e : string * Point)
    (l : list (string * Point)) :
  Rsum (omap (partScore M w h) (e :: l))
  = from_option id 0 (partScore M w h e) + Rsum (omap (partScore M w h) l).
Proof.
  unfold Rsum. cbn [omap list_omap].
  destruct (partScore M w h e); cbn [from_option fold_right]; unfold id; lra.
Qed.



End Monotone.


(** ** The sample poses, evaluated *)

Section SampleRuns.
Import Samples.

Lemma detected_left_shoulder (x y : R) :
  detected (mkPose (Some [left_shoulder_at x y 0.9]))
  = <["left_shoulder"%string := left_shoulder_at x y 0.9]> ∅.
Proof.
  unfold detected, keypointMap. cbn [pose_keypoints fold_left].
  apply (keypointMap_add_usable _ _ _ 0.9); try reflexivity; [discriminate|lra].
Qed.

Lemma weightOf_side_chest :
  map (fun e => weightOf e.1) (tpl_keypoints side_chest)
  = [1.5; 1.5; 1.5; 1.5; 1.5; 1.5; 0.8; 0.8; 0.6; 0.6].
Proof.
  cbn [map tpl_keypoints side_chest fst].
  rewrite !weightOf_spec. unfold spec_weight.
  rewrite !includes_cons, !includes_nil. reflexivity.
Qed.

Lemma totalScore_left_shoulder (x y : R) :
  Rsum (omap (partScore (detected (mkPose (Some [left_shoulder_at x y 0.9]))) 640 480)
             (tpl_keypoints side_chest))
  = Math_max 0 (1 - sqrt (((256 - x) / 640)² + ((120 - y) / 480)²) * 5) * 1.5.
Proof.
  rewrite detected_left_shoulder.
  cbn [tpl_keypoints side_chest]. rewrite !totalScore_cons.
  unfold partScore. cbn [fst snd].
  rewrite lookup_insert_eq.
  rewrite !lookup_insert_ne by discriminate. rewrite !lookup_empty.
  cbn [mbind option_bind from_option omap list_omap Rsum fold_right]. unfold id.
  replace (weightOf "left_shoulder") with 1.5
    by (rewrite weightOf_spec; unfold spec_weight;
        rewrite !includes_cons, !includes_nil; reflexivity).
  unfold distance, Math_sqrt, Math_pow, left_shoulder_at.
  cbn [kp_x kp_y pt_x pt_y].
  replace ((0.4 * 640 - x) / 640) with ((256 - x) / 640) by lra.
  replace ((0.25 * 480 - y) / 480) with ((120 - y) / 480) by lra.
  rewrite <- !Rsqr_pow2. ring.
Qed.

(** On the target the single matched part scores its full weight:
    [round (100 * 1.5 / 11.8) = 13]. *)
Example score_on_target :
  score (scorePose pose_on_target side_chest 640 480) = 13.
Proof.
  rewrite scorePose_score. unfold pose_on_target.
  rewrite totalScore_left_shoulder, weightOf_side_chest.
  replace (((256 - 256) / 640)² + ((120 - 120) / 480)²) with 0
    by (unfold Rsqr; lra).
  rewrite sqrt_0. unfold Math_max. rewrite Rmax_right by lra.
  cbn [Rsum fold_right]. unfold js_gt. rewrite bool_decide_eq_true_2 by lra.
  unfold Math_round. f_equal. apply Zfloor_eq. cbn [IZR]. lra.
Qed.

(** 32 pixels off in a 640 pixel wide frame is a distance of 0.05:
    [round (100 * 0.75 * 1.5 / 11.8) = 10]. *)
Example score_off_target :
  score (scorePose pose_off_target side_chest 640 480) = 10.
Proof.
  rewrite scorePose_score. unfold pose_off_target.
  rewrite totalScore_left_shoulder, weightOf_side_chest.
  replace (((256 - 288) / 640)² + ((120 - 120) / 480)²) with (0.05²)
    by (unfold Rsqr; lra).
  rewrite sqrt_Rsqr by lra. unfold Math_max. rewrite Rmax_right by lra.
  cbn [Rsum fold_right]. unfold js_gt. rewrite bool_decide_eq_true_2 by lra.
  unfold Math_round. f_equal. apply Zfloor_eq. cbn [IZR]. lra.
Qed.

End SampleRuns.


(** ** [getPoseFeedback] *)

Section Feedback.
Variable scoreResult : PoseScoreResult.
Variable template : PoseTemplate.

Let missingMessage := missingMessage scoreResult template.

Lemma missingFeedback_app (feedback : list string) :
  ∃ extra, missingFeedback scoreResult template feedback = feedback ++ extra
           ∧ Forall missingMessage extra.
Proof.
  unfold missingFeedback, push.
  destruct (0 <? length (missingKeypoints scoreResult))%nat;
    [|exists []; split; [now rewrite app_nil_r|constructor]].
  set (up := List.filter (includes upperBodyKeypoints) _).
  set (low := List.filter (includes lowerBodyKeypoints) _).
  assert (∃ e1, (if (0 <? length up)%nat
                 then if (length (map (replace_first "_" " ") up) <=? 3)%nat
                      then feedback ++ [msg_make_sure (map (replace_first "_" " ") up)]
                      else feedback ++ [msg_several_upper]
                 else feedback) = feedback ++ e1 ∧ Forall missingMessage e1)
    as (e1 & -> & He1).
  { destruct (0 <? length up)%nat.
    - destruct (_ <=? 3)%nat; eexists; split; try reflexivity;
        repeat constructor.
    - exists []. split; [now rewrite app_nil_r|constructor]. }
  destruct (String.eqb_spec (tpl_id template) "front-double-biceps") as [Ha|Ha];
    destruct (String.eqb_spec (tpl_id template) "front-lat-spread") as [Hb|Hb];
    cbn [orb];
    try (exists e1; split; [reflexivity|assumption]);
    (destruct (0 <? length low)%nat; cbn [andb];
     [destruct (js_lt (score scoreResult) 70) eqn:E;
      [apply js_lt_spec in E; exists (e1 ++ [msg_lower_body]);
       split; [now rewrite app_assoc|];
       apply Forall_app; split; [assumption|];
       apply Forall_cons; split; [apply mm_lower; [tauto|assumption]|constructor]
      |exists e1; split; [reflexivity|assumption]]
     |exists e1; split; [reflexivity|assumption]]).
Qed.

(** What the [switch] adds, by template id. *)
Lemma poseSpecificFeedback_app (feedback : list string) :
  ∃ extra, poseSpecificFeedback scoreResult template feedback = feedback ++ extra
           ∧ Forall (fun m => m ∈ poseTips) extra.
Proof.
  unfold poseSpecificFeedback, push, poseTips.
  assert (∀ m, m ∈ poseTips →
            ∃ extra, (if js_lt (score scoreResult) 70 then feedback ++ [m] else feedback)
                     = feedback ++ extra ∧ Forall (fun m => m ∈ poseTips) extra) as Htip.
  { intros m Hm. destruct (js_lt _ 70).
    - exists [m]. split; [reflexivity|]. now constructor.
    - exists []. split; [now rewrite app_nil_r|constructor]. }
  repeat (destruct (String.eqb _ _); [apply Htip; repeat constructor|]).
  exists []. split; [now rewrite app_nil_r|constructor].
Qed.

Lemma poseSpecificFeedback_side_chest (feedback : list string) :
  tpl_id template = "side-chest"%string →
  poseSpecificFeedback scoreResult template feedback
  = if js_lt (score scoreResult) 70 then feedback ++ [tip_side_chest] else feedback.
Proof.
  intros Hid. unfold poseSpecificFeedback, push. rewrite Hid. reflexivity.
Qed.

Lemma missingMessage_not_overall (m : string) :
  missingMessage m → m ∉ overallMessages.
Proof.
  intros Hm Hin. unfold overallMessages in Hin.
  repeat (apply elem_of_cons in Hin as [Hin|Hin]);
    try (now apply elem_of_nil in Hin);
    destruct Hm; discriminate Hin.
Qed.

Lemma poseTip_not_overall (m : string) : m ∈ poseTips → m ∉ overallMessages.
Proof.
  unfold poseTips, overallMessages. intros Hm Hin.
  repeat (apply elem_of_cons in Hm as [Hm|Hm]);
    try (now apply elem_of_nil in Hm); subst m;
    repeat (apply elem_of_cons in Hin as [Hin|Hin]);
    try (now apply elem_of_nil in Hin); discriminate Hin.
Qed.

End Feedback.

(** *** Sample runs *)

Ltac run_getPoseFeedback :=
  unfold getPoseFeedback, missingFeedback, poseSpecificFeedback, overallFeedback,
    push, js_ge, js_lt;
  cbn [score missingKeypoints tpl_id side_chest front_double_biceps];
  repeat case_bool_decide; try lra; reflexivity.

(** Two missing upper body parts are named, underscores read as spaces. *)
Example getPoseFeedback_names_parts :
  getPoseFeedback (mkResult 85 8 10 ["left_shoulder"; "right_elbow"]%string) side_chest
  = [ msg_very_close;
      "Make sure your left shoulder, right elbow are visible to the camera."%string ].
Proof. run_getPoseFeedback. Qed.

(** More than three missing upper body parts are not enumerated; knees are
    not upper body parts. *)
Example getPoseFeedback_several_parts :
  getPoseFeedback
    (mkResult 30 5 10 [ "left_shoulder"; "right_shoulder"; "left_elbow";
                        "left_wrist"; "left_knee" ]%string) side_chest
  = [ msg_keep_practicing; msg_several_upper; tip_side_chest ].
Proof. run_getPoseFeedback. Qed.

(** A full body pose with a missing hip and a score below 70. *)
Example getPoseFeedback_lower_body :
  getPoseFeedback (mkResult 50 9 10 ["left_hip"]%string) front_double_biceps
  = [ msg_right_track; msg_lower_body; tip_front_double_biceps ].
Proof. run_getPoseFeedback. Qed.

(** C5.  The first message of [getPoseFeedback] is the overall-score message
    of the band the score falls in (at least 95, 80 to 95, 60 to 80, 40 to
    60, below 40; lower bounds included), and no later message of the list
    is an overall-score message. *)
Theorem getPoseFeedback_overall (scoreResult : PoseScoreResult) (template : PoseTemplate) :
  ∃ first rest,
    getPoseFeedback scoreResult template = first :: rest
    ∧ (95 <= score scoreResult → first = msg_mastered)
    ∧ (80 <= score scoreResult < 95 → first = msg_very_close)
    ∧ (60 <= score scoreResult < 80 → first = msg_good_effort)
    ∧ (40 <= score scoreResult < 60 → first = msg_right_track)
    ∧ (score scoreResult < 40 → first = msg_keep_practicing)
    ∧ first ∈ overallMessages
    ∧ Forall (fun m => m ∉ overallMessages) rest.
Proof.
  unfold getPoseFeedback, push. cbn [app].
  destruct (missingFeedback_app scoreResult template
              [overallFeedback (score scoreResult)]) as (e1 & -> & He1).
  destruct (poseSpecificFeedback_app scoreResult template
              ([overallFeedback (score scoreResult)] ++ e1)) as (e2 & -> & He2).
  exists (overallFeedback (score scoreResult)), (e1 ++ e2).
  split; [now rewrite <- app_assoc|].
  unfold overallFeedback, js_ge, overallMessages.
  repeat split; try (intros; repeat case_bool_decide; (reflexivity || lra)).
  - repeat case_bool_decide; repeat constructor.
  - apply Forall_app. split.
    + eapply Forall_impl; [exact He1|]. apply missingMessage_not_overall.
    + eapply Forall_impl; [exact He2|]. apply poseTip_not_overall.
Qed.

(** C9.  For the template with id [side-chest] the list of [getPoseFeedback]
    never contains the lower body hint, ends with the side chest tip when the
    score is below 70, and contains no side chest tip when the score is 70 or
    more. *)
Theorem getPoseFeedback_side_chest (scoreResult : PoseScoreResult)
    (template : PoseTemplate) :
  tpl_id template = "side-chest"%string →
  (msg_lower_body ∉ getPoseFeedback scoreResult template)
  ∧ (score scoreResult < 70 →
       last (getPoseFeedback scoreResult template) = Some tip_side_chest)
  ∧ (70 <= score scoreResult →
       tip_side_chest ∉ getPoseFeedback scoreResult template).
Proof.
  intros Hid. unfold getPoseFeedback, push. cbn [app].
  rewrite poseSpecificFeedback_side_chest by assumption.
  destruct (missingFeedback_app scoreResult template
              [overallFeedback (score scoreResult)]) as (e1 & -> & He1).
  assert (Hov : ∀ m, m ∈ poseTips ∨ m = msg_lower_body →
                     m ≠ overallFeedback (score scoreResult)).
  { intros m Hm ->. unfold overallFeedback, poseTips in Hm.
    destruct Hm as [Hm|Hm].
    - repeat (apply elem_of_cons in Hm as [Hm|Hm]);
        try (now apply elem_of_nil in Hm);
        repeat (destruct (js_ge _ _) in Hm); discriminate Hm.
    - repeat (destruct (js_ge _ _) in Hm); discriminate Hm. }
  assert (Hlow : msg_lower_body ∉ e1).
  { intros Hin. rewrite Forall_forall in He1. specialize (He1 _ Hin).
    inversion He1 as [l Hl| |Ha Hs Hm]; try discriminate.
    rewrite Hid in Ha. destruct Ha; discriminate. }
  assert (Htip : tip_side_chest ∉ e1).
  { intros Hin. rewrite Forall_forall in He1. specialize (He1 _ Hin).
    inversion He1; discriminate. }
  assert (Hpre : ∀ m, m ∈ poseTips ∨ m = msg_lower_body → m ∉ e1 →
                      m ∉ [overallFeedback (score scoreResult)] ++ e1).
  { intros m Hm Hne Hin. cbn [app] in Hin.
    apply elem_of_cons in Hin as [Hin|Hin]; [|auto]. exact (Hov m Hm Hin). }
  assert (Htip_in : tip_side_chest ∈ poseTips) by (unfold poseTips; repeat constructor).
  split; [|split].
  - destruct (js_lt (score scoreResult) 70).
    + rewrite elem_of_app. intros [Hin|Hin]; [now apply (Hpre msg_lower_body); auto|].
      apply elem_of_cons in Hin as [Hin|Hin]; [discriminate|now apply elem_of_nil in Hin].
    + apply Hpre; auto.
  - intros Hlt. apply js_lt_spec in Hlt. rewrite Hlt. apply last_snoc.
  - intros Hge. unfold js_lt. rewrite bool_decide_eq_false_2 by lra.
    apply Hpre; auto.
Qed.

Lemma getPoseFeedback_side_chest_witness :
  tpl_id side_chest = "side-chest"%string
  ∧ getPoseFeedback
      (mkResult 50 6 10 ["left_hip"; "right_hip"; "left_knee"; "right_knee"]%string)
      side_chest
    = [ msg_right_track; tip_side_chest ]
  ∧ msg_lower_body ∉ getPoseFeedback
      (mkResult 50 6 10 ["left_hip"; "right_hip"; "left_knee"; "right_knee"]%string)
      side_chest.
Proof.
  split; [reflexivity|]. split.
  - unfold getPoseFeedback, missingFeedback, poseSpecificFeedback, overallFeedback,
      push, js_ge, js_lt.
    cbn [score missingKeypoints tpl_id side_chest length Nat.ltb Nat.leb].
    repeat case_bool_decide; try lra. reflexivity.
  - apply (getPoseFeedback_side_chest
             (mkResult 50 6 10 ["left_hip"; "right_hip"; "left_knee"; "right_knee"]%string)
             side_chest). reflexivity.
Defined.

(** ** [analyzePose] *)

Import usePoseDetection AnalyzeSpec.

Section Checks.
Variable getKeypoint : string → option Keypoint.

Lemma confident_above (k : Keypoint) : confident k = confidenceAbove 0.2 k.
Proof.
  unfold confident, confidenceAbove, truthy_number, js_gt.
  destruct (kp_score k) as [s|]; [|reflexivity].
  repeat case_bool_decide; try reflexivity; lra.
Qed.

(** The divisor of a slope is at least 0.1. *)
Lemma slopeDivisor_pos (l r : Keypoint) : 0.1 <= slopeDivisor l r.
Proof. unfold slopeDivisor, Math_max. apply Rmax_l. Qed.

(** A check adds its item, or nothing. *)
Lemma checkLevel_items (l r : option Keypoint) (item : PoseFeedback) (c : Checks) :
  feedbackItems (checkLevel l r item c)
  = feedbackItems c ++
      match l, r with
      | Some a, Some b => if js_gt (slope a b) 0.1 then [item] else []
      | _, _ => []
      end.
Proof.
  unfold checkLevel, report.
  destruct l as [a|], r as [b|]; try (now rewrite app_nil_r).
  destruct (js_gt _ _); [reflexivity|now rewrite app_nil_r].
Qed.

Lemma checkLevel_grows (l r : option Keypoint) (item : PoseFeedback) (c : Checks) :
  ∃ extra, feedbackItems (checkLevel l r item c) = feedbackItems c ++ extra
           ∧ Forall (fun i => i = item) extra.
Proof.
  rewrite checkLevel_items. eexists. split; [reflexivity|].
  destruct l, r; try constructor. destruct (js_gt _ _); repeat constructor.
Qed.

Lemma lowerBodyChecks_grows (c : Checks) :
  ∃ extra, feedbackItems (lowerBodyChecks getKeypoint c) = feedbackItems c ++ extra
           ∧ Forall (fun i => i ∈ [item_hips; item_knees; item_back]) extra.
Proof.
  unfold lowerBodyChecks.
  destruct (checkLevel_grows (getKeypoint "left_hip") (getKeypoint "right_hip")
              item_hips c) as (a & Ha & Fa).
  destruct (checkLevel_grows (getKeypoint "left_knee") (getKeypoint "right_knee")
              item_knees (checkLevel (getKeypoint "left_hip")
                            (getKeypoint "right_hip") item_hips c))
    as (b & Hb & Fb).
  exists (a ++ b). rewrite Hb, Ha, app_assoc. split; [reflexivity|].
  apply Forall_app. split; (eapply Forall_impl; [eassumption|]);
    intros i ->; repeat constructor.
Qed.

Lemma backCheck_grows (c : Checks) :
  ∃ extra, feedbackItems (backCheck getKeypoint c) = feedbackItems c ++ extra
           ∧ Forall (fun i => i ∈ [item_hips; item_knees; item_back]) extra.
Proof.
  unfold backCheck.
  destruct (getKeypoint "left_shoulder"), (getKeypoint "right_shoulder"),
           (getKeypoint "left_hip"), (getKeypoint "right_hip");
    try (exists []; split; [now rewrite app_nil_r|constructor]).
  cbv zeta. destruct (js_gt _ _);
    [|exists []; split; [now rewrite app_nil_r|constructor]].
  exists [item_back]. split; [reflexivity|]. repeat constructor.
Qed.

(** In fitness mode with both shoulders seen, the shoulder check comes
    first; what follows are hip, knee and back items. *)
Lemma fitnessChecks_items (l r : Keypoint) (c : Checks) :
  getKeypoint "left_shoulder" = Some l →
  getKeypoint "right_shoulder" = Some r →
  ∃ extra,
    feedbackItems (fitnessChecks getKeypoint c)
    = feedbackItems c ++ (if js_gt (slope l r) 0.1 then [item_shoulders] else [])
        ++ extra
    ∧ Forall (fun i => i ∈ [item_hips; item_knees; item_back]) extra.
Proof.
  intros Hl Hr. unfold fitnessChecks.
  assert (hasUpperBody getKeypoint = true) as ->.
  { unfold hasUpperBody. rewrite Hl, Hr. rewrite !bool_decide_eq_true_2 by eauto.
    reflexivity. }
  cbv zeta. cbn [andb]. rewrite Hl, Hr.
  set (c1 := checkLevel (Some l) (Some r) item_shoulders c).
  assert (feedbackItems c1
          = feedbackItems c ++ (if js_gt (slope l r) 0.1 then [item_shoulders] else []))
    as H1 by apply checkLevel_items.
  destruct (hasLowerBody getKeypoint).
  - destruct (lowerBodyChecks_grows c1) as (e2 & H2 & He2).
    destruct (backCheck_grows (lowerBodyChecks getKeypoint c1)) as (e3 & H3 & He3).
    exists (e2 ++ e3). rewrite H3, H2, H1, <- !app_assoc. split; [reflexivity|].
    now apply Forall_app.
  - exists []. rewrite H1, app_nil_r. split; [reflexivity|constructor].
Qed.

(** The closing block keeps the reported items and adds at most one
    message, which is a success message or the hint to show more. *)
Lemma positiveFeedback_items (mode : PoseMode) (c : Checks) :
  ∃ extra, positiveFeedback getKeypoint mode c = feedbackItems c ++ extra
           ∧ Forall (fun i => (severity i = success ∧ part i = None)
                              ∨ i = item_show_more) extra.
Proof.
  unfold positiveFeedback.
  destruct (_ || _); [|exists []; split; [now rewrite app_nil_r|constructor]].
  destruct (hasUpperBody getKeypoint), (hasLowerBody getKeypoint),
           (hasFace getKeypoint), mode; cbn [andb];
    eexists; (split; [reflexivity|]); (constructor; [|constructor]);
    ((left; split; reflexivity) || (right; reflexivity)).
Qed.

(** The closing block never returns an empty list. *)
Lemma positiveFeedback_nonempty (mode : PoseMode) (c : Checks) :
  positiveFeedback getKeypoint mode c ≠ [].
Proof.
  unfold positiveFeedback.
  destruct (length (feedbackItems c) =? 0)%nat eqn:E; cbn [orb];
    [|destruct (isPerfect c);
      [|intros H; rewrite H in E; discriminate]];
    destruct (hasUpperBody getKeypoint), (hasLowerBody getKeypoint),
             (hasFace getKeypoint); cbn [andb];
    intros H; now apply app_eq_nil in H as [_ ?].
Qed.

End Checks.

Section ChecksGrow.
Variable getKeypoint : string → option Keypoint.

Lemma checkItems_sub (i : PoseFeedback) :
  i ∈ [item_hips; item_knees; item_back] → i ∈ checkItems.
Proof.
  unfold checkItems. intros H.
  repeat (apply elem_of_cons in H as [->|H]); try (now apply elem_of_nil in H);
    repeat constructor.
Qed.

Lemma fitnessChecks_grows (c : Checks) :
  ∃ extra, feedbackItems (fitnessChecks getKeypoint c) = feedbackItems c ++ extra
           ∧ Forall (fun i => i ∈ checkItems) extra.
Proof.
  unfold fitnessChecks. cbv zeta.
  set (c1 := if hasUpperBody getKeypoint then _ else c).
  assert (∃ e1, feedbackItems c1 = feedbackItems c ++ e1
                ∧ Forall (fun i => i ∈ checkItems) e1) as (e1 & H1 & F1).
  { subst c1. destruct (hasUpperBody getKeypoint).
    - destruct (checkLevel_grows (getKeypoint "left_shoulder")
                  (getKeypoint "right_shoulder") item_shoulders c) as (e & He & Fe).
      exists e. split; [exact He|]. eapply Forall_impl; [exact Fe|].
      intros i ->. unfold checkItems. repeat constructor.
    - exists []. split; [now rewrite app_nil_r|constructor]. }
  set (c2 := if hasLowerBody getKeypoint then _ else c1).
  assert (∃ e2, feedbackItems c2 = feedbackItems c1 ++ e2
                ∧ Forall (fun i => i ∈ checkItems) e2) as (e2 & H2 & F2).
  { subst c2. destruct (hasLowerBody getKeypoint).
    - destruct (lowerBodyChecks_grows getKeypoint c1) as (e & He & Fe).
      exists e. split; [exact He|]. eapply Forall_impl; [exact Fe|].
      apply checkItems_sub.
    - exists []. split; [now rewrite app_nil_r|constructor]. }
  destruct (_ && _).
  - destruct (backCheck_grows getKeypoint c2) as (e3 & H3 & F3).
    exists (e1 ++ e2 ++ e3). rewrite H3, H2, H1, <- !app_assoc.
    split; [reflexivity|]. rewrite !Forall_app. repeat split; try assumption.
    eapply Forall_impl; [exact F3|]. apply checkItems_sub.
  - exists (e1 ++ e2). rewrite H2, H1, <- !app_assoc.
    split; [reflexivity|]. now rewrite Forall_app.
Qed.

Lemma faceChecks_grows (c : Checks) :
  ∃ extra, feedbackItems (faceChecks getKeypoint c) = feedbackItems c ++ extra
           ∧ Forall (fun i => i ∈ checkItems) extra.
Proof.
  unfold faceChecks. cbv zeta.
  destruct (checkLevel_grows (getKeypoint "left_eye") (getKeypoint "right_eye")
              item_head c) as (e1 & H1 & F1).
  assert (Forall (fun i => i ∈ checkItems) e1) as F1'.
  { eapply Forall_impl; [exact F1|]. intros i ->. unfold checkItems.
    repeat constructor. }
  destruct (getKeypoint "nose") as [nose|]; [|eauto].
  destruct (js_gt _ _); [|eauto].
  exists (e1 ++ [item_position]). cbn [report feedbackItems].
  rewrite H1, <- app_assoc. split; [reflexivity|].
  rewrite Forall_app. split; [assumption|].
  constructor; [|constructor]. unfold checkItems. repeat constructor.
Qed.

Lemma photographyChecks_grows (c : Checks) :
  ∃ extra, feedbackItems (photographyChecks getKeypoint c) = feedbackItems c ++ extra
           ∧ Forall (fun i => i ∈ checkItems) extra.
Proof.
  unfold photographyChecks. cbv zeta.
  set (c1 := if hasFace getKeypoint then _ else c).
  assert (∃ e1, feedbackItems c1 = feedbackItems c ++ e1
                ∧ Forall (fun i => i ∈ checkItems) e1) as (e1 & H1 & F1).
  { subst c1. destruct (hasFace getKeypoint); [apply faceChecks_grows|].
    exists []. split; [now rewrite app_nil_r|constructor]. }
  destruct (hasUpperBody getKeypoint).
  - destruct (checkLevel_grows (getKeypoint "left_shoulder")
                (getKeypoint "right_shoulder") item_photo_shoulders c1)
      as (e2 & H2 & F2).
    exists (e1 ++ e2). rewrite H2, H1, <- app_assoc. split; [reflexivity|].
    rewrite Forall_app. split; [assumption|].
    eapply Forall_impl; [exact F2|]. intros i ->. unfold checkItems.
    repeat constructor.
  - eauto.
Qed.

End ChecksGrow.

(** Every message of [analyzePose] is the message of a geometric check, a
    success message, or one of the three fixed info messages. *)
Lemma analyzePose_items (pose : Pose) (mode : PoseMode) (item : PoseFeedback) :
  item ∈ analyzePose pose mode →
  item ∈ checkItems ∨ severity item = success
  ∨ item ∈ [item_show_more; item_low_confidence; item_no_pose].
Proof.
  unfold analyzePose.
  destruct (pose_keypoints pose) as [all|];
    [|intros ->%list_elem_of_singleton; right; right; repeat constructor].
  destruct (_ <? 3)%nat;
    [intros ->%list_elem_of_singleton; right; right; repeat constructor|].
  cbv zeta.
  set (getKeypoint := fun name : string => _).
  set (c := match mode with fitness => _ | photography => _ end).
  assert (Forall (fun i => i ∈ checkItems) (feedbackItems c)) as Hc.
  { subst c. destruct mode;
      [destruct (fitnessChecks_grows getKeypoint (mkChecks [] true)) as (e & -> & F)
      |destruct (photographyChecks_grows getKeypoint (mkChecks [] true)) as (e & -> & F)];
      exact F. }
  destruct (positiveFeedback_items getKeypoint mode c) as (e & -> & Fe).
  rewrite elem_of_app. rewrite Forall_forall in Hc, Fe. intros [H|H].
  - left. now apply Hc.
  - destruct (Fe _ H) as [[Hs _]| ->]; [now right; left|].
    right; right. repeat constructor.
Qed.

Lemma checkItems_info (item : PoseFeedback) : item ∈ checkItems → severity item = info.
Proof.
  unfold checkItems. intros H.
  repeat (apply elem_of_cons in H as [->|H]); try (now apply elem_of_nil in H);
    reflexivity.
Qed.

(** No message of [analyzePose] has severity [warning]. *)
Lemma analyzePose_no_warning (pose : Pose) (mode : PoseMode) (item : PoseFeedback) :
  item ∈ analyzePose pose mode → severity item ≠ warning.
Proof.
  intros [H|[H|H]]%analyzePose_items.
  - rewrite (checkItems_info _ H). discriminate.
  - rewrite H. discriminate.
  - repeat (apply elem_of_cons in H as [->|H]); try (now apply elem_of_nil in H);
      discriminate.
Qed.

(** ** The shoulder check of fitness mode *)

Lemma filter_confident (all : list Keypoint) :
  List.filter confident all = List.filter (confidenceAbove 0.2) all.
Proof. apply filter_ext. intros k. apply confident_above. Qed.

(** With three confident keypoints and both shoulders seen, the list of
    fitness mode starts with the shoulder item exactly when the clamped slope
    exceeds 0.1; nothing after it is about the shoulders. *)
Lemma analyzePose_fitness_shoulders (pose : Pose) (all : list Keypoint) (l r : Keypoint) :
  pose_keypoints pose = Some all →
  (3 <= length (List.filter (confidenceAbove 0.2) all))%nat →
  seen pose "left_shoulder" = Some l →
  seen pose "right_shoulder" = Some r →
  ∃ rest,
    analyzePose pose fitness
    = (if js_gt (slope l r) 0.1 then [item_shoulders] else []) ++ rest
    ∧ Forall (fun i => part i ≠ Some "shoulders"%string) rest.
Proof.
  intros Hall Hlen Hl Hr. unfold seen in Hl, Hr. unfold analyzePose.
  rewrite Hall in *. cbn [mbind option_bind] in Hl, Hr.
  rewrite <- filter_confident in Hlen.
  destruct (Nat.ltb_spec (length (List.filter confident all)) 3) as [?|_]; [lia|].
  cbv zeta.
  set (getKeypoint := fun name : string => _).
  destruct (fitnessChecks_items getKeypoint l r (mkChecks [] true) Hl Hr)
    as (e1 & H1 & F1).
  destruct (positiveFeedback_items getKeypoint fitness
              (fitnessChecks getKeypoint (mkChecks [] true))) as (e2 & -> & F2).
  exists (e1 ++ e2). rewrite H1. cbn [feedbackItems app]. rewrite <- app_assoc.
  split; [reflexivity|]. apply Forall_app. split.
  - eapply Forall_impl; [exact F1|]. intros i Hi.
    repeat (apply elem_of_cons in Hi as [->|Hi]); try (now apply elem_of_nil in Hi);
      discriminate.
  - eapply Forall_impl; [exact F2|]. intros i [[_ Hi]| ->]; [|discriminate].
    rewrite Hi. discriminate.
Qed.

(** Under the same conditions the shoulder item is in the list exactly when
    the clamped slope exceeds 0.1, and it is the only item about the
    shoulders. *)
Lemma analyzePose_fitness_shoulders_iff (pose : Pose) (all : list Keypoint)
    (l r : Keypoint) :
  pose_keypoints pose = Some all →
  (3 <= length (List.filter (confidenceAbove 0.2) all))%nat →
  seen pose "left_shoulder" = Some l →
  seen pose "right_shoulder" = Some r →
  (item_shoulders ∈ analyzePose pose fitness ↔ 0.1 < slope l r)
  ∧ (∀ item, item ∈ analyzePose pose fitness →
             part item = Some "shoulders"%string → item = item_shoulders).
Proof.
  intros Hall Hlen Hl Hr.
  destruct (analyzePose_fitness_shoulders pose all l r Hall Hlen Hl Hr)
    as (rest & -> & Hrest).
  rewrite Forall_forall in Hrest.
  assert (Hin : ∀ item, item ∈ (if js_gt (slope l r) 0.1 then [item_shoulders] else [])
                          ++ rest →
                        part item = Some "shoulders"%string →
                        item = item_shoulders ∧ 0.1 < slope l r).
  { intros item [Hi|Hi]%elem_of_app Hp; [|now destruct (Hrest _ Hi)].
    destruct (js_gt (slope l r) 0.1) eqn:E; [|now apply elem_of_nil in Hi].
    apply list_elem_of_singleton in Hi. split; [assumption|now apply js_gt_spec]. }
  split.
  - split.
    + intros Hi. now apply (Hin _ Hi).
    + intros Hs%js_gt_spec. rewrite Hs. left.
  - intros item Hi Hp. now apply (Hin _ Hi).
Qed.

(** ** The sample poses of the shoulder check, evaluated *)

Section ShoulderSamples.
Import Samples.
Variables x1 y1 x2 y2 : R.

Let ls := named "left_shoulder" x1 y1.
Let rs := named "right_shoulder" x2 y2.
Let all := [ls; rs; named "nose" 150 50].
Let pose := mkPose (Some all).

Lemma confident_named (name : string) (x y : R) : confident (named name x y) = true.
Proof.
  rewrite confident_above. unfold confidenceAbove, named. cbn [kp_score].
  apply bool_decide_eq_true_2. lra.
Qed.

Lemma sample_confident : List.filter confident all = all.
Proof.
  subst all ls rs. cbn [List.filter]. now rewrite !confident_named.
Qed.

Lemma sample_seen (name : string) :
  seen pose name
  = if decide (name = "nose"%string) then Some (named "nose" 150 50)
    else if decide (name = "right_shoulder"%string) then Some rs
    else if decide (name = "left_shoulder"%string) then Some ls
    else None.
Proof.
  unfold seen, pose. cbn [pose_keypoints mbind option_bind].
  rewrite sample_confident. unfold keypointMap, all, ls, rs, named.
  cbn [fold_left kp_name].
  repeat match goal with
         | |- context [<[Some ?k := _]> _ !! Some name] =>
             destruct (decide (name = k)) as [->|?];
             [now rewrite lookup_insert_eq
             |rewrite lookup_insert_ne by congruence]
         end.
  apply lookup_empty.
Qed.

Lemma sample_fitness :
  analyzePose pose fitness
  = if js_gt (slope ls rs) 0.1 then [item_shoulders]
    else [item_perfect "PERFECT! Upper body form is excellent!"].
Proof.
  pose proof sample_seen as Hseen. unfold seen, pose in Hseen.
  cbn [pose_keypoints mbind option_bind] in Hseen.
  unfold analyzePose, pose. cbn [pose_keypoints].
  rewrite sample_confident in *.
  replace (length all <? 3)%nat with false by reflexivity. cbv zeta.
  assert (keypointMap all !! Some "left_shoulder"%string = Some ls) as Hls
    by (rewrite Hseen; reflexivity).
  assert (keypointMap all !! Some "right_shoulder"%string = Some rs) as Hrs
    by (rewrite Hseen; reflexivity).
  assert (keypointMap all !! Some "left_hip"%string = None) as Hlh
    by (rewrite Hseen; reflexivity).
  assert (keypointMap all !! Some "right_hip"%string = None) as Hrh
    by (rewrite Hseen; reflexivity).
  unfold positiveFeedback, fitnessChecks, lowerBodyChecks, backCheck,
    hasUpperBody, hasLowerBody, hasFace.
  rewrite Hls, Hrs, Hlh, Hrh.
  rewrite !bool_decide_eq_true_2 by eauto.
  rewrite !bool_decide_eq_false_2 by (intros [? ?]; discriminate).
  cbn [andb orb checkLevel].
  destruct (js_gt (slope ls rs) 0.1); reflexivity.
Qed.

End ShoulderSamples.

Section SlopeValues.
Import Samples.

Lemma slope_wide (x1 y1 x2 y2 : R) :
  0.1 <= x2 - x1 →
  slope (named "left_shoulder" x1 y1) (named "right_shoulder" x2 y2)
  = spec_slope (named "left_shoulder" x1 y1) (named "right_shoulder" x2 y2).
Proof.
  intros H. unfold slope, spec_slope, slopeDivisor, Math_abs, Math_max, named.
  cbn [kp_x kp_y]. now rewrite Rmax_right.
Qed.

Lemma slope_level : slope (named "left_shoulder" 100 100) (named "right_shoulder" 200 100) = 0.
Proof.
  rewrite slope_wide by lra. unfold spec_slope, named. cbn [kp_x kp_y].
  replace ((100 - 100) / (200 - 100)) with 0 by lra. apply Rabs_R0.
Qed.

Lemma slope_tilted :
  slope (named "left_shoulder" 100 100) (named "right_shoulder" 200 140) = 0.4.
Proof.
  rewrite slope_wide by lra. unfold spec_slope, named. cbn [kp_x kp_y].
  replace ((140 - 100) / (200 - 100)) with 0.4 by lra. apply Rabs_right. lra.
Qed.

Lemma slope_stacked :
  slope (named "left_shoulder" 100 100) (named "right_shoulder" 100 140) = 400.
Proof.
  unfold slope, slopeDivisor, Math_abs, Math_max, named. cbn [kp_x kp_y].
  rewrite Rmax_left by lra.
  replace ((140 - 100) / 0.1) with 400 by lra. apply Rabs_right. lra.
Qed.

(** Level shoulders: no levelness message, only the success message. *)
Example analyzePose_level :
  analyzePose pose_level fitness
  = [item_perfect "PERFECT! Upper body form is excellent!"].
Proof.
  unfold pose_level. rewrite sample_fitness, slope_level.
  unfold js_gt. now rewrite bool_decide_eq_false_2 by lra.
Qed.

(** Shoulders at y = 100 and y = 140, 100 apart: the levelness message,
    with severity [info]. *)
Example analyzePose_tilted : analyzePose pose_tilted fitness = [item_shoulders].
Proof.
  unfold pose_tilted. rewrite sample_fitness, slope_tilted.
  unfold js_gt. now rewrite bool_decide_eq_true_2 by lra.
Qed.

(** Shoulders that share their x: the divisor is 0.1 and the slope is 400. *)
Example analyzePose_stacked : analyzePose pose_stacked fitness = [item_shoulders].
Proof.
  unfold pose_stacked. rewrite sample_fitness, slope_stacked.
  unfold js_gt. now rewrite bool_decide_eq_true_2 by lra.
Qed.

(** The right shoulder 100 to the left of the left one and 5 lower: the
    line has slope 0.05, the divisor is clamped to 0.1 and the message is
    emitted all the same. *)
Example analyzePose_mirrored :
  spec_slope (named "left_shoulder" 200 100) (named "right_shoulder" 100 105) = 0.05
  ∧ analyzePose pose_mirrored fitness = [item_shoulders].
Proof.
  split.
  - unfold spec_slope, named. cbn [kp_x kp_y].
    replace ((105 - 100) / (100 - 200)) with (0 - 0.05) by lra.
    rewrite Rabs_left; lra.
  - unfold pose_mirrored. rewrite sample_fitness.
    replace (js_gt _ 0.1) with true; [reflexivity|].
    symmetry. apply js_gt_spec.
    unfold slope, slopeDivisor, Math_abs, Math_max, named. cbn [kp_x kp_y].
    rewrite Rmax_left by lra.
    replace ((105 - 100) / 0.1) with 50 by lra. rewrite Rabs_right; lra.
Qed.

End SlopeValues.

(** C7, as the code has it.  In fitness mode, with at least three keypoints
    of confidence above 0.2 and both shoulders among them, [analyzePose]
    emits the shoulder levelness message, with severity [info], exactly when
    [|dy / max (0.1, dx)|] exceeds 0.1, [dx] and [dy] being the differences
    right minus left; it is the only message about the shoulders.  Shoulders
    at equal [y] produce no such message, and when [dx] is at least 0.1 the
    tested quantity is the absolute slope of the shoulder line. *)
Theorem analyzePose_shoulder_levelness (pose : Pose) (all : list Keypoint)
    (l r : Keypoint) :
  pose_keypoints pose = Some all →
  (3 <= length (List.filter (confidenceAbove 0.2) all))%nat →
  seen pose "left_shoulder" = Some l →
  seen pose "right_shoulder" = Some r →
  (item_shoulders ∈ analyzePose pose fitness
   ↔ 0.1 < Rabs ((kp_y r - kp_y l) / Rmax 0.1 (kp_x r - kp_x l)))
  ∧ severity item_shoulders = info
  ∧ (∀ item, item ∈ analyzePose pose fitness →
             part item = Some "shoulders"%string → item = item_shoulders)
  ∧ (kp_y l = kp_y r → item_shoulders ∉ analyzePose pose fitness)
  ∧ (0.1 <= kp_x r - kp_x l →
       (item_shoulders ∈ analyzePose pose fitness ↔ 0.1 < spec_slope l r)).
Proof.
  intros Hall Hlen Hl Hr.
  destruct (analyzePose_fitness_shoulders_iff pose all l r Hall Hlen Hl Hr)
    as [Hiff Honly].
  split; [exact Hiff|]. split; [reflexivity|]. split; [exact Honly|]. split.
  - intros Hy. rewrite Hiff. unfold slope, Math_abs.
    replace (kp_y r - kp_y l) with 0 by lra.
    unfold Rdiv. rewrite Rmult_0_l, Rabs_R0. lra.
  - intros Hx. rewrite Hiff. unfold slope, spec_slope, slopeDivisor, Math_abs, Math_max.
    now rewrite Rmax_right.
Qed.

Lemma analyzePose_shoulder_levelness_witness :
  pose_keypoints Samples.pose_tilted
    = Some [ Samples.named "left_shoulder" 100 100;
             Samples.named "right_shoulder" 200 140; Samples.named "nose" 150 50 ]
  ∧ (3 <= length (List.filter (confidenceAbove 0.2)
                    [ Samples.named "left_shoulder" 100 100;
                      Samples.named "right_shoulder" 200 140;
                      Samples.named "nose" 150 50 ]))%nat
  ∧ seen Samples.pose_tilted "left_shoulder" = Some (Samples.named "left_shoulder" 100 100)
  ∧ seen Samples.pose_tilted "right_shoulder"
    = Some (Samples.named "right_shoulder" 200 140)
  ∧ (item_shoulders ∈ analyzePose Samples.pose_tilted fitness
     ↔ 0.1 < Rabs ((140 - 100) / Rmax 0.1 (200 - 100))).
Proof.
  assert (H2 : (3 <= length (List.filter (confidenceAbove 0.2)
                    [ Samples.named "left_shoulder" 100 100;
                      Samples.named "right_shoulder" 200 140;
                      Samples.named "nose" 150 50 ]))%nat).
  { rewrite <- filter_confident, sample_confident. cbn [length]. lia. }
  assert (H3 : seen Samples.pose_tilted "left_shoulder"
               = Some (Samples.named "left_shoulder" 100 100))
    by (unfold Samples.pose_tilted; rewrite sample_seen; reflexivity).
  assert (H4 : seen Samples.pose_tilted "right_shoulder"
               = Some (Samples.named "right_shoulder" 200 140))
    by (unfold Samples.pose_tilted; rewrite sample_seen; reflexivity).
  repeat (split; [first [reflexivity | assumption]|]).
  exact (proj1 (analyzePose_shoulder_levelness Samples.pose_tilted _ _ _
                  eq_refl H2 H3 H4)).
Defined.

(** C7, as the claim states it, fails twice.  For shoulders at y = 100 and
    y = 140, 100 apart, the slope 0.4 exceeds 0.1 but no message of severity
    [warning] about the shoulders is emitted.  And for a right shoulder 100
    to the left of the left one and 5 lower, the slope 0.05 does not exceed
    0.1 but the levelness message is emitted. *)
Lemma analyzePose_shoulder_warning_counterexample :
  (seen Samples.pose_tilted "left_shoulder" = Some (Samples.named "left_shoulder" 100 100)
   ∧ seen Samples.pose_tilted "right_shoulder"
     = Some (Samples.named "right_shoulder" 200 140)
   ∧ ¬ ((∃ item, item ∈ analyzePose Samples.pose_tilted fitness
                 ∧ part item = Some "shoulders"%string ∧ severity item = warning)
        ↔ 0.1 < spec_slope (Samples.named "left_shoulder" 100 100)
                           (Samples.named "right_shoulder" 200 140)))
  ∧ (seen Samples.pose_mirrored "left_shoulder"
     = Some (Samples.named "left_shoulder" 200 100)
     ∧ seen Samples.pose_mirrored "right_shoulder"
       = Some (Samples.named "right_shoulder" 100 105)
     ∧ ¬ ((∃ item, item ∈ analyzePose Samples.pose_mirrored fitness
                   ∧ part item = Some "shoulders"%string)
          ↔ 0.1 < spec_slope (Samples.named "left_shoulder" 200 100)
                             (Samples.named "right_shoulder" 100 105))).
Proof.
  split; (split; [|split]);
    try (unfold Samples.pose_tilted, Samples.pose_mirrored; rewrite sample_seen;
         reflexivity).
  - intros [_ Hback].
    destruct Hback as (item & Hin & _ & Hsev).
    + rewrite <- slope_wide by lra. rewrite slope_tilted. lra.
    + exact (analyzePose_no_warning _ _ _ Hin Hsev).
  - intros [Hfwd _]. destruct analyzePose_mirrored as [Hs Hm].
    rewrite Hs in Hfwd. assert (0.1 < 0.05); [|lra].
    apply Hfwd. exists item_shoulders. rewrite Hm. split; [left|reflexivity].
Qed.

(** C8.  In either mode, a pose with fewer than three keypoints of
    confidence above 0.2 (none at all included) gets the single low
    confidence message, of severity [info], and no message of a geometric
    check. *)
Theorem analyzePose_low_confidence (pose : Pose) (all : list Keypoint) (mode : PoseMode) :
  pose_keypoints pose = Some all →
  (length (List.filter (confidenceAbove 0.2) all) < 3)%nat →
  analyzePose pose mode = [item_low_confidence]
  ∧ severity item_low_confidence = info
  ∧ (∀ item, item ∈ analyzePose pose mode → item ∉ checkItems).
Proof.
  intros Hall Hlen. unfold analyzePose. rewrite Hall, filter_confident.
  destruct (Nat.ltb_spec (length (List.filter (confidenceAbove 0.2) all)) 3) as [_|?];
    [|lia].
  split; [reflexivity|]. split; [reflexivity|].
  intros item ->%list_elem_of_singleton Hin. unfold checkItems in Hin.
  repeat (apply elem_of_cons in Hin as [Hin|Hin]); try (now apply elem_of_nil in Hin);
    discriminate.
Qed.

Lemma analyzePose_low_confidence_witness :
  pose_keypoints Samples.pose_none = Some []
  ∧ (length (List.filter (confidenceAbove 0.2) []) < 3)%nat
  ∧ analyzePose Samples.pose_none photography = [item_low_confidence].
Proof.
  assert (H : (length (List.filter (confidenceAbove 0.2) []) < 3)%nat) by (cbn; lia).
  split; [reflexivity|]. split; [exact H|].
  exact (proj1 (analyzePose_low_confidence Samples.pose_none [] photography eq_refl H)).
Defined.

(** C10.  The divisor of every slope is [max (0.1, dx)], at least 0.1 and so
    never zero; for keypoints that share their x the slope is [|dy| / 0.1],
    and the shoulder check of fitness mode then decides on that value; and
    [analyzePose] returns, for every pose and mode, a non-empty list
    whose messages are those of the geometric checks, success messages, or
    the three fixed info messages. *)
Theorem analyzePose_slope_safe (pose : Pose) (mode : PoseMode) (l r : Keypoint) :
  slopeDivisor l r = Rmax 0.1 (kp_x r - kp_x l)
  ∧ 0.1 <= slopeDivisor l r
  ∧ slopeDivisor l r ≠ 0
  ∧ slope l r = Rabs ((kp_y r - kp_y l) / slopeDivisor l r)
  ∧ (kp_x l = kp_x r → slope l r = Rabs (kp_y r - kp_y l) / 0.1)
  ∧ (∀ all, pose_keypoints pose = Some all →
            (3 <= length (List.filter (confidenceAbove 0.2) all))%nat →
            seen pose "left_shoulder" = Some l →
            seen pose "right_shoulder" = Some r →
            kp_x l = kp_x r →
            (item_shoulders ∈ analyzePose pose fitness
             ↔ 0.1 < Rabs (kp_y r - kp_y l) / 0.1))
  ∧ analyzePose pose mode ≠ []
  ∧ (∀ item, item ∈ analyzePose pose mode →
             item ∈ checkItems ∨ severity item = success
             ∨ item ∈ [item_show_more; item_low_confidence; item_no_pose]).
Proof.
  pose proof (slopeDivisor_pos l r) as Hd.
  split; [reflexivity|]. split; [exact Hd|]. split; [lra|]. split; [reflexivity|].
  assert (Hsame : kp_x l = kp_x r → slope l r = Rabs (kp_y r - kp_y l) / 0.1).
  { intros Hx. unfold slope, slopeDivisor, Math_abs, Math_max.
    rewrite Rmax_left by lra. unfold Rdiv. rewrite Rabs_mult.
    f_equal. apply Rabs_right. lra. }
  split; [exact Hsame|]. split; [|split].
  - intros all Hall Hlen Hl Hr Hx. rewrite <- (Hsame Hx).
    apply (analyzePose_fitness_shoulders_iff pose all l r Hall Hlen Hl Hr).
  - unfold analyzePose. destruct (pose_keypoints pose) as [all|]; [|discriminate].
    destruct (_ <? 3)%nat; [discriminate|]. apply positiveFeedback_nonempty.
  - apply analyzePose_items.
Qed.

(** * Further properties *)

(** ** [scorePose]: what the result depends on *)

Import Resize.

Lemma parts_ext (D1 D2 : gmap string Keypoint) (w1 h1 w2 h2 : R)
    (l : list (string * Point)) :
  (∀ e, e ∈ l → isMatched D1 e.1 = isMatched D2 e.1
                ∧ partScore D1 w1 h1 e = partScore D2 w2 h2 e) →
  List.filter (isMatched D1) (Object_keys l) = List.filter (isMatched D2) (Object_keys l)
  ∧ List.filter (fun n => negb (isMatched D1 n)) (Object_keys l)
    = List.filter (fun n => negb (isMatched D2 n)) (Object_keys l)
  ∧ omap (partScore D1 w1 h1) l = omap (partScore D2 w2 h2) l.
Proof.
  unfold Object_keys. induction l as [|e l IH]; intros Hsame; [repeat split|].
  destruct IH as (I1 & I2 & I3).
  { intros e' He'. apply Hsame. now right. }
  destruct (Hsame e (list_elem_of_here _ _)) as [E1 E2].
  cbn [fmap list_fmap List.filter omap list_omap].
  rewrite E1, E2, I1, I2, I3. repeat split.
Qed.

(** The result is determined by which template parts are matched and by
    what each contributes. *)
Lemma scorePose_ext (pose1 pose2 : Pose) (template : PoseTemplate) (w1 h1 w2 h2 : R) :
  (∀ e, e ∈ tpl_keypoints template →
        isMatched (detected pose1) e.1 = isMatched (detected pose2) e.1
        ∧ partScore (detected pose1) w1 h1 e = partScore (detected pose2) w2 h2 e) →
  scorePose pose1 template w1 h1 = scorePose pose2 template w2 h2.
Proof.
  intros Hsame.
  destruct (parts_ext _ _ _ _ _ _ _ Hsame) as (F1 & F2 & F3).
  pose proof (scorePose_missing pose1 template w1 h1) as Hm1.
  pose proof (scorePose_missing pose2 template w2 h2) as Hm2.
  pose proof (scorePose_matched pose1 template w1 h1) as Hc1.
  pose proof (scorePose_matched pose2 template w2 h2) as Hc2.
  pose proof (scorePose_total pose1 template w1 h1) as Ht1.
  pose proof (scorePose_total pose2 template w2 h2) as Ht2.
  pose proof (scorePose_score pose1 template w1 h1) as Hs1.
  pose proof (scorePose_score pose2 template w2 h2) as Hs2.
  rewrite F1 in Hc1. rewrite F2 in Hm1. rewrite F3 in Hs1.
  destruct (scorePose pose1 template w1 h1), (scorePose pose2 template w2 h2).
  cbn in *. congruence.
Qed.

(** X3.  Keypoints that do not bear the name of a template part play no role:
    two poses whose detected sets agree on the parts of the template get the
    same result. *)
Theorem scorePose_only_template_parts (pose1 pose2 : Pose) (template : PoseTemplate)
    (w h : R) :
  (∀ n, n ∈ Object_keys (tpl_keypoints template) →
        detected pose1 !! n = detected pose2 !! n) →
  scorePose pose1 template w h = scorePose pose2 template w h.
Proof.
  intros Hagree. apply scorePose_ext. intros e He.
  assert (detected pose1 !! e.1 = detected pose2 !! e.1) as Heq.
  { apply Hagree. unfold Object_keys. apply list_elem_of_fmap. eauto. }
  unfold isMatched, partScore. now rewrite Heq.
Qed.

Lemma scorePose_only_template_parts_witness :
  (∀ n, n ∈ Object_keys (tpl_keypoints side_chest) →
        detected Samples.pose_on_target !! n = detected MoreSamples.pose_with_ankle !! n)
  ∧ scorePose Samples.pose_on_target side_chest 640 480
    = scorePose MoreSamples.pose_with_ankle side_chest 640 480.
Proof.
  assert (H : ∀ n, n ∈ Object_keys (tpl_keypoints side_chest) →
        detected Samples.pose_on_target !! n = detected MoreSamples.pose_with_ankle !! n).
  { intros n Hn. unfold Samples.pose_on_target, MoreSamples.pose_with_ankle.
    unfold detected at 2. cbn [pose_keypoints]. unfold poseScoring.keypointMap.
    cbn [fold_left].
    rewrite (keypointMap_add_usable _ (mkKeypoint 300 460 _ _) "left_ankle" 0.9);
      try reflexivity; [|discriminate|lra].
    rewrite lookup_insert_ne; [reflexivity|].
    cbn in Hn. intros <-.
    repeat (apply elem_of_cons in Hn as [Hn|Hn]; [discriminate Hn|]).
    now apply elem_of_nil in Hn. }
  split; [exact H|].
  exact (scorePose_only_template_parts Samples.pose_on_target
           MoreSamples.pose_with_ankle side_chest 640 480 H).
Defined.

(** ** [scorePose]: the ends of the scale *)

Lemma filter_all {A} (f : A → bool) (l : list A) :
  (∀ a, a ∈ l → f a = true) → List.filter f l = l.
Proof.
  induction l as [|a l IH]; intros H; [reflexivity|].
  cbn. rewrite (H a (list_elem_of_here _ _)). f_equal. apply IH.
  intros b Hb. apply H. now right.
Qed.

Lemma filter_none {A} (f : A → bool) (l : list A) :
  (∀ a, a ∈ l → f a = false) → List.filter f l = [].
Proof.
  induction l as [|a l IH]; intros H; [reflexivity|].
  cbn. rewrite (H a (list_elem_of_here _ _)). apply IH.
  intros b Hb. apply H. now right.
Qed.

(** When every matched part contributes [0], the score is [0]. *)
Lemma score_zero (pose : Pose) (template : PoseTemplate) (w h : R) :
  (∀ e v, e ∈ tpl_keypoints template →
          partScore (detected pose) w h e = Some v → v = 0) →
  score (scorePose pose template w h) = 0.
Proof.
  intros Hz. rewrite scorePose_score.
  assert (Rsum (omap (partScore (detected pose) w h) (tpl_keypoints template)) = 0)
    as ->.
  { unfold Rsum. induction (tpl_keypoints template) as [|e l IH]; [reflexivity|].
    cbn [omap list_omap].
    destruct (partScore (detected pose) w h e) as [v|] eqn:E.
    - cbn [fold_right]. rewrite (Hz e v (list_elem_of_here _ _) E), IH; [lra|].
      intros e' v' He'. apply Hz. now right.
    - apply IH. intros e' v' He'. apply Hz. now right. }
  transitivity (Math_round 0); [f_equal|apply Math_round_0].
  destruct (js_gt _ 0); unfold Rdiv; ring.
Qed.

Lemma scorePose_on_targets (pose : Pose) (template : PoseTemplate) (w h : R) :
  0 < w → 0 < h →
  tpl_keypoints template ≠ [] →
  (∀ n target, (n, target) ∈ tpl_keypoints template →
     ∃ k, detected pose !! n = Some k
          ∧ kp_x k = pt_x target * w ∧ kp_y k = pt_y target * h) →
  scorePose pose template w h
  = mkResult 100 (length (tpl_keypoints template)) (length (tpl_keypoints template)) [].
Proof.
  intros Hw Hh Hne Hall.
  pose proof (scorePose_missing pose template w h) as Hm.
  pose proof (scorePose_matched pose template w h) as Hc.
  pose proof (scorePose_total pose template w h) as Ht.
  pose proof (scorePose_score pose template w h) as Hs.
  assert (Hmatched : ∀ n, n ∈ Object_keys (tpl_keypoints template) →
                          isMatched (detected pose) n = true).
  { intros n [[n' target] [-> He]]%list_elem_of_fmap.
    destruct (Hall _ _ He) as (k & Hk & _). unfold isMatched. cbn. now rewrite Hk. }
  rewrite (filter_all _ _ Hmatched) in Hc.
  rewrite filter_none in Hm
    by (intros n Hn; now rewrite (Hmatched n Hn)).
  assert (Hparts : omap (partScore (detected pose) w h) (tpl_keypoints template)
                   = map (fun e => weightOf e.1) (tpl_keypoints template)).
  { clear -Hall Hw Hh. induction (tpl_keypoints template) as [|[n target] l IH];
      [reflexivity|].
    cbn [omap list_omap map]. unfold partScore at 1. cbn [fst snd].
    destruct (Hall n target (list_elem_of_here _ _)) as (k & -> & Hx & Hy).
    cbn [mbind option_bind].
    rewrite IH by (intros n' t' H'; apply Hall; now right).
    f_equal. unfold distance, Math_sqrt, Math_pow, Math_max. rewrite Hx, Hy.
    replace (((pt_x target * w - pt_x target * w) / w) ^ 2
             + ((pt_y target * h - pt_y target * h) / h) ^ 2) with 0
      by (unfold Rdiv; ring).
    rewrite sqrt_0, Rmax_right by lra. lra. }
  rewrite Hparts in Hs.
  assert (0 < Rsum (map (fun e => weightOf e.1) (tpl_keypoints template))) as Hpos.
  { clear -Hne. destruct (tpl_keypoints template) as [|e l]; [congruence|].
    cbn [map Rsum fold_right].
    pose proof (weightOf_pos e.1).
    pose proof (totalScore_bounds ∅ 0 0 l) as [_ H0]. rewrite partScore_empty in H0.
    cbn [Rsum fold_right] in H0. unfold Rsum in H0. lra. }
  unfold js_gt in Hs. rewrite bool_decide_eq_true_2 in Hs by exact Hpos.
  replace (_ / _ * 100) with 100 in Hs by (field; lra).
  rewrite (Math_round_IZR 100) in Hs.
  unfold Object_keys in *. rewrite length_fmap in Hc, Ht.
  destruct (scorePose pose template w h). cbn in *. congruence.
Qed.

(** X1.  A pose that shows every part of a non-empty template exactly on its
    target, in a frame of positive size, scores 100 with every part matched
    and none missing. *)
Theorem scorePose_perfect (pose : Pose) (template : PoseTemplate) (w h : R) :
  0 < w → 0 < h →
  tpl_keypoints template ≠ [] →
  (∀ n target, (n, target) ∈ tpl_keypoints template →
     ∃ k, detected pose !! n = Some k
          ∧ kp_x k = pt_x target * w ∧ kp_y k = pt_y target * h) →
  scorePose pose template w h
  = mkResult 100 (length (tpl_keypoints template)) (length (tpl_keypoints template)) [].
Proof. apply scorePose_on_targets. Qed.

(** X2.  When every matched part is at least 0.2 away from its target (a
    fifth of the frame), the score is 0. *)
Theorem scorePose_all_far (pose : Pose) (template : PoseTemplate) (w h : R) :
  (∀ n target k, (n, target) ∈ tpl_keypoints template →
                 detected pose !! n = Some k → 0.2 <= distance target k w h) →
  score (scorePose pose template w h) = 0.
Proof.
  intros Hfar. apply score_zero. intros [n target] v He. unfold partScore. cbn [fst snd].
  destruct (detected pose !! n) as [k|] eqn:Hk; [|discriminate].
  cbn. intros [= <-]. pose proof (Hfar n target k He Hk) as Hd.
  unfold Math_max. rewrite Rmax_left by lra. ring.
Qed.

(** X7.  A result without a matched part has score 0: a positive score means
    that at least one template part was found. *)
Theorem scorePose_none_matched (pose : Pose) (template : PoseTemplate) (w h : R) :
  matchedKeypoints (scorePose pose template w h) = 0%nat →
  score (scorePose pose template w h) = 0.
Proof.
  rewrite scorePose_matched. intros Hlen%length_zero_iff_nil.
  apply score_zero. intros [n target] v He. unfold partScore. cbn [fst snd].
  destruct (detected pose !! n) as [k|] eqn:Hk; [|discriminate].
  exfalso.
  assert (n ∈ List.filter (isMatched (detected pose)) (Object_keys (tpl_keypoints template)))
    as Hin.
  { apply list_elem_of_In, filter_In. split.
    - apply list_elem_of_In. unfold Object_keys. apply list_elem_of_fmap.
      now exists (n, target).
    - unfold isMatched. now rewrite Hk. }
  rewrite Hlen in Hin. now apply elem_of_nil in Hin.
Qed.

Lemma detected_single (k : Keypoint) (n : string) (s : R) :
  kp_name k = Some n → n ≠ ""%string → kp_score k = Some s → 0.3 < s →
  detected (mkPose (Some [k])) = <[n := k]> ∅.
Proof.
  intros. unfold detected, poseScoring.keypointMap. cbn [pose_keypoints fold_left].
  now apply (keypointMap_add_usable _ _ _ s).
Qed.

Lemma detected_nose (x y : R) :
  detected (mkPose (Some [MoreSamples.nose_at x y]))
  = <["nose"%string := MoreSamples.nose_at x y]> ∅.
Proof. apply (detected_single _ _ 0.9); try reflexivity; [discriminate|lra]. Qed.

Lemma scorePose_perfect_witness :
  0 < 640 ∧ 0 < 480
  ∧ scorePose MoreSamples.pose_hit MoreSamples.one_part 640 480 = mkResult 100 1 1 [].
Proof.
  split; [lra|]. split; [lra|].
  apply (scorePose_perfect MoreSamples.pose_hit MoreSamples.one_part 640 480);
    [lra|lra|discriminate|].
  intros n target Hin. cbn in Hin.
  apply list_elem_of_singleton in Hin. injection Hin as -> ->.
  exists (MoreSamples.nose_at 320 240). unfold MoreSamples.pose_hit.
  rewrite detected_nose, lookup_insert_eq. cbn. repeat split; lra.
Defined.

Lemma scorePose_all_far_witness :
  distance (mkPoint 0.5 0.5) (MoreSamples.nose_at 480 240) 640 480 = 0.25
  ∧ score (scorePose MoreSamples.pose_miss MoreSamples.one_part 640 480) = 0.
Proof.
  assert (Hd : distance (mkPoint 0.5 0.5) (MoreSamples.nose_at 480 240) 640 480 = 0.25).
  { unfold distance, Math_sqrt, Math_pow, MoreSamples.nose_at. cbn [pt_x pt_y kp_x kp_y].
    replace (((0.5 * 640 - 480) / 640) ^ 2 + ((0.5 * 480 - 240) / 480) ^ 2)
      with (0.25²) by (unfold Rsqr; lra).
    apply sqrt_Rsqr. lra. }
  split; [exact Hd|].
  apply (scorePose_all_far MoreSamples.pose_miss MoreSamples.one_part 640 480).
  intros n target k Hin. cbn in Hin.
  apply list_elem_of_singleton in Hin. injection Hin as -> ->.
  unfold MoreSamples.pose_miss. rewrite detected_nose, lookup_insert_eq.
  intros [= <-]. rewrite Hd. lra.
Defined.

Lemma scorePose_none_matched_witness :
  matchedKeypoints (scorePose MoreSamples.pose_elsewhere MoreSamples.one_part 640 480)
  = 0%nat
  ∧ score (scorePose MoreSamples.pose_elsewhere MoreSamples.one_part 640 480) = 0.
Proof.
  assert (H : matchedKeypoints
                (scorePose MoreSamples.pose_elsewhere MoreSamples.one_part 640 480)
              = 0%nat).
  { rewrite scorePose_matched. unfold MoreSamples.pose_elsewhere.
    rewrite (detected_single _ "left_ear" 0.9);
      [|reflexivity|discriminate|reflexivity|lra].
    cbn [MoreSamples.one_part tpl_keypoints Object_keys fmap list_fmap fst List.filter].
    unfold isMatched. rewrite lookup_insert_ne by discriminate.
    now rewrite lookup_empty. }
  split; [exact H|].
  exact (scorePose_none_matched MoreSamples.pose_elsewhere MoreSamples.one_part 640 480 H).
Defined.

(** ** [scorePose]: one more part detected *)

Section DetectMore.
Variable D : gmap string Keypoint.
Variables w h : R.
Variable part : string.
Variable k : Keypoint.
Hypothesis Hnew : D !! part = None.

Lemma partScore_more (e : string * Point) :
  from_option id 0 (partScore D w h e)
  <= from_option id 0 (partScore (<[part := k]> D) w h e).
Proof.
  unfold partScore. destruct (decide (e.1 = part)) as [->|Hne].
  - rewrite lookup_insert_eq, Hnew. cbn. unfold id.
    pose proof (weightOf_pos part).
    assert (0 <= Math_max 0 (1 - distance e.2 k w h * 5)) by apply Rmax_l.
    nra.
  - rewrite lookup_insert_ne by congruence. lra.
Qed.

Lemma totalScore_more (l : list (string * Point)) :
  Rsum (omap (partScore D w h) l)
  <= Rsum (omap (partScore (<[part := k]> D) w h) l).
Proof.
  induction l as [|e l IH]; [cbn; lra|].
  rewrite !totalScore_cons. apply Rplus_le_compat; [apply partScore_more|exact IH].
Qed.

Lemma matched_more (l : list string) :
  (length (List.filter (isMatched D) l)
   <= length (List.filter (isMatched (<[part := k]> D)) l))%nat.
Proof.
  induction l as [|n l IH]; [reflexivity|].
  cbn [List.filter].
  destruct (isMatched D n) eqn:E1, (isMatched (<[part := k]> D) n) eqn:E2;
    cbn [length]; try lia.
  exfalso. unfold isMatched in E1, E2.
  destruct (decide (n = part)) as [->|Hne].
  - now rewrite lookup_insert_eq in E2.
  - rewrite lookup_insert_ne in E2 by congruence. destruct (D !! n); discriminate.
Qed.

End DetectMore.

(** X4.  Detecting one more part, whatever its position, never lowers the
    score nor the number of matched parts. *)
Theorem scorePose_detect_more (pose1 pose2 : Pose) (template : PoseTemplate)
    (w h : R) (part : string) (k : Keypoint) :
  detected pose1 !! part = None →
  detected pose2 = <[part := k]> (detected pose1) →
  score (scorePose pose1 template w h) <= score (scorePose pose2 template w h)
  ∧ (matchedKeypoints (scorePose pose1 template w h)
     <= matchedKeypoints (scorePose pose2 template w h))%nat.
Proof.
  intros Hnew HD. split.
  - rewrite !scorePose_score. apply Math_round_mono. rewrite HD.
    pose proof (totalScore_more (detected pose1) w h part k Hnew
                  (tpl_keypoints template)) as Hts.
    destruct (js_gt _ 0) eqn:E; [|lra].
    apply js_gt_spec in E. pose proof (Rinv_0_lt_compat _ E) as Hi.
    unfold Rdiv. nra.
  - rewrite !scorePose_matched, HD. now apply matched_more.
Qed.

Lemma scorePose_detect_more_witness :
  detected MoreSamples.pose_elsewhere !! "nose"%string = None
  ∧ score (scorePose MoreSamples.pose_elsewhere MoreSamples.one_part 640 480)
    <= score (scorePose
                (mkPose (Some [ mkKeypoint 10 10 (Some 0.9) (Some "left_ear"%string);
                                MoreSamples.nose_at 320 240 ]))
                MoreSamples.one_part 640 480).
Proof.
  assert (He : detected MoreSamples.pose_elsewhere
               = <["left_ear"%string := mkKeypoint 10 10 (Some 0.9) (Some "left_ear"%string)]> ∅)
    by (apply (detected_single _ _ 0.9); try reflexivity; [discriminate|lra]).
  assert (H1 : detected MoreSamples.pose_elsewhere !! "nose"%string = None)
    by (rewrite He, lookup_insert_ne by discriminate; apply lookup_empty).
  split; [exact H1|].
  apply (scorePose_detect_more MoreSamples.pose_elsewhere _ MoreSamples.one_part
           640 480 "nose" (MoreSamples.nose_at 320 240) H1).
  rewrite He. unfold detected, poseScoring.keypointMap. cbn [pose_keypoints fold_left].
  rewrite (keypointMap_add_usable ∅ _ "left_ear" 0.9); try reflexivity;
    [|discriminate|lra].
  apply (keypointMap_add_usable _ _ "nose" 0.9); try reflexivity; [discriminate|lra].
Defined.

(** ** [scorePose]: the size of the frame *)

Section Scale.
Variable c : R.





End Scale.



(** ** The detected keypoint set *)

(** X6.  The detected set holds a name exactly when the pose has a keypoint
    of that name with a confidence above 0.3; the keypoint stored under a
    name is such a keypoint of the pose; and of several, the last one is
    stored. *)
Theorem detected_usable (pose : Pose) (n : string) :
  (is_Some (detected pose !! n)
   ↔ ∃ keypoints k, pose_keypoints pose = Some keypoints
                    ∧ k ∈ keypoints ∧ usable k ∧ kp_name k = Some n)
  ∧ (∀ k, detected pose !! n = Some k →
          usable k ∧ kp_name k = Some n
          ∧ ∃ keypoints, pose_keypoints pose = Some keypoints ∧ k ∈ keypoints)
  ∧ (∀ keypoints k, pose_keypoints pose = Some (keypoints ++ [k]) →
                    usable k → kp_name k = Some n →
                    detected pose !! n = Some k).
Proof.
  unfold detected. destruct (pose_keypoints pose) as [ks|].
  - split; [split|split].
    + intros [k Hk]. destruct (keypointMap_sound _ _ _ Hk) as (? & ? & ?).
      exists ks, k. auto.
    + intros (ks' & k & [= <-] & Hin & Hu & Hn).
      now apply (keypointMap_complete ks n k).
    + intros k Hk. destruct (keypointMap_sound _ _ _ Hk) as (? & ? & ?). eauto.
    + intros ks' k [= ->] (n0 & s & H1 & H2 & H3 & H4) Hn.
      rewrite keypointMap_snoc, (keypointMap_add_usable _ _ _ _ H1 H2 H3 H4).
      assert (n0 = n) as -> by congruence. apply lookup_insert_eq.
  - rewrite lookup_empty. split; [split|split].
    + intros [? ?]. discriminate.
    + intros (? & ? & ? & _). discriminate.
    + discriminate.
    + discriminate.
Qed.

(** ** [getPoseFeedback]: the four parts of the list *)

Import FeedbackParts.

Lemma filter_nil_of_nil {A} (f : A → bool) (l : list A) :
  l = [] → List.filter f l = [].
Proof. now intros ->. Qed.

Lemma missingFeedback_parts (r : PoseScoreResult) (t : PoseTemplate)
    (feedback : list string) :
  missingFeedback r t feedback = feedback ++ upperPart r ++ lowerPart r t.
Proof.
  unfold missingFeedback, upperPart, lowerPart, missingUpper, missingLower, fullBody, push.
  destruct (missingKeypoints r) as [|m ms] eqn:Hm.
  - cbn. now rewrite app_nil_r.
  - cbn [length Nat.ltb Nat.leb]. cbv zeta.
    set (up := List.filter (includes upperBodyKeypoints) (m :: ms)).
    set (low := List.filter (includes lowerBodyKeypoints) (m :: ms)).
    rewrite length_map.
    destruct up as [|u us], low as [|x xs];
      destruct (_ || _), (js_lt (score r) 70);
      cbn [length Nat.ltb Nat.leb andb app];
      try destruct (length us <=? 2)%nat;
      rewrite ?app_nil_r, <- ?app_assoc; reflexivity.
Qed.

Lemma poseSpecificFeedback_parts (r : PoseScoreResult) (t : PoseTemplate)
    (feedback : list string) :
  poseSpecificFeedback r t feedback = feedback ++ tipPart r t.
Proof.
  unfold poseSpecificFeedback, tipPart, tipOf, push.
  repeat (destruct (String.eqb (tpl_id t) _);
          [destruct (js_lt _ 70); [reflexivity|now rewrite app_nil_r]|]).
  now rewrite app_nil_r.
Qed.

(** The list is the overall message, then the upper body message, the lower
    body hint and the tip, each if present. *)
Lemma getPoseFeedback_parts (r : PoseScoreResult) (t : PoseTemplate) :
  getPoseFeedback r t
  = overallFeedback (score r) :: upperPart r ++ lowerPart r t ++ tipPart r t.
Proof.
  unfold getPoseFeedback, push. cbn [app].
  rewrite poseSpecificFeedback_parts, missingFeedback_parts.
  cbn [app]. now rewrite <- app_assoc.
Qed.

Lemma overallFeedback_in (s : R) : overallFeedback s ∈ overallMessages.
Proof.
  unfold overallFeedback, overallMessages.
  repeat (destruct (js_ge s _); [repeat constructor|]). repeat constructor.
Qed.

Lemma upperPart_cases (r : PoseScoreResult) :
  upperPart r = [] ∨ upperPart r = [msg_several_upper]
  ∨ ∃ l, upperPart r = [msg_make_sure l].
Proof.
  unfold upperPart. destruct (missingUpper r); [now left|].
  destruct (_ <=? 3)%nat; [right; right; eauto|right; now left].
Qed.

Lemma lowerPart_cases (r : PoseScoreResult) (t : PoseTemplate) :
  lowerPart r t = [] ∨ lowerPart r t = [msg_lower_body].
Proof.
  unfold lowerPart. destruct (missingLower r); [now left|].
  destruct (_ && _); [now right|now left].
Qed.

Lemma tipOf_in (id m : string) : tipOf id = Some m → m ∈ poseTips.
Proof.
  unfold tipOf, poseTips.
  repeat (destruct (String.eqb id _); [intros [= <-]; repeat constructor|]).
  discriminate.
Qed.

Lemma tipPart_cases (r : PoseScoreResult) (t : PoseTemplate) :
  tipPart r t = [] ∨ ∃ m, m ∈ poseTips ∧ tipPart r t = [m].
Proof.
  unfold tipPart. destruct (tipOf (tpl_id t)) as [m|] eqn:E; [|now left].
  destruct (js_lt _ 70); [|now left]. right. exists m. split; [|reflexivity].
  now apply (tipOf_in (tpl_id t)).
Qed.

(** X8.  The list of [getPoseFeedback] has a fixed order: the overall
    message, then at most one message about missing upper body parts, at most
    one lower body hint and at most one pose tip, so between one and four
    messages.  With a score of 70 or more there is neither hint nor tip, and
    with nothing missing neither of the two messages about missing parts. *)
Theorem getPoseFeedback_order (r : PoseScoreResult) (t : PoseTemplate) :
  ∃ upper lower tip,
    getPoseFeedback r t = overallFeedback (score r) :: upper ++ lower ++ tip
    ∧ (upper = [] ∨ upper = [msg_several_upper] ∨ ∃ l, upper = [msg_make_sure l])
    ∧ (lower = [] ∨ lower = [msg_lower_body])
    ∧ (tip = [] ∨ ∃ m, m ∈ poseTips ∧ tip = [m])
    ∧ (1 <= length (getPoseFeedback r t) <= 4)%nat
    ∧ (70 <= score r → lower = [] ∧ tip = [])
    ∧ (missingKeypoints r = [] → upper = [] ∧ lower = []).
Proof.
  exists (upperPart r), (lowerPart r t), (tipPart r t).
  pose proof (upperPart_cases r) as Hu.
  pose proof (lowerPart_cases r t) as Hl.
  pose proof (tipPart_cases r t) as Ht.
  rewrite getPoseFeedback_parts.
  split; [reflexivity|]. split; [exact Hu|]. split; [exact Hl|]. split; [exact Ht|].
  split; [|split].
  - cbn [length]. rewrite !length_app.
    destruct Hu as [->|[->|[? ->]]], Hl as [->| ->], Ht as [->|(? & _ & ->)];
      cbn [length]; lia.
  - intros Hge. unfold lowerPart, tipPart, js_lt.
    rewrite bool_decide_eq_false_2 by lra. rewrite andb_false_r.
    split; [now destruct (missingLower r)|now destruct (tipOf _)].
  - intros Hnil. unfold upperPart, lowerPart, missingUpper, missingLower.
    now rewrite Hnil.
Qed.

(** X9.  The lower body hint is in the list exactly when the template is one
    of the two full body poses, the score is below 70, and a hip or a knee is
    among the missing keypoints. *)
Theorem getPoseFeedback_lower_body_hint (r : PoseScoreResult) (t : PoseTemplate) :
  msg_lower_body ∈ getPoseFeedback r t
  ↔ (tpl_id t = "front-double-biceps"%string ∨ tpl_id t = "front-lat-spread"%string)
    ∧ score r < 70
    ∧ ∃ n, n ∈ missingKeypoints r ∧ n ∈ lowerBodyKeypoints.
Proof.
  rewrite getPoseFeedback_parts.
  assert (Hlow : lowerPart r t = [msg_lower_body]
                 ↔ (tpl_id t = "front-double-biceps"%string
                    ∨ tpl_id t = "front-lat-spread"%string)
                   ∧ score r < 70
                   ∧ ∃ n, n ∈ missingKeypoints r ∧ n ∈ lowerBodyKeypoints).
  { unfold lowerPart, missingLower, fullBody.
    destruct (List.filter _ _) as [|x xs] eqn:Ef.
    - split; [discriminate|]. intros (_ & _ & n & Hn & Hl). exfalso.
      assert (n ∈ List.filter (includes lowerBodyKeypoints) (missingKeypoints r)) as Hin.
      { apply list_elem_of_In, filter_In. split; [now apply list_elem_of_In|].
        now apply bool_decide_eq_true. }
      rewrite Ef in Hin. now apply elem_of_nil in Hin.
    - assert (∃ n, n ∈ missingKeypoints r ∧ n ∈ lowerBodyKeypoints) as Hex.
      { exists x. assert (In x (x :: xs)) as Hx by now left.
        rewrite <- Ef in Hx. apply filter_In in Hx as [H1 H2].
        split; [now apply list_elem_of_In|now apply bool_decide_eq_true in H2]. }
      destruct (String.eqb_spec (tpl_id t) "front-double-biceps") as [Ha|Ha];
        destruct (String.eqb_spec (tpl_id t) "front-lat-spread") as [Hb|Hb];
        cbn [orb andb]; unfold js_lt; try case_bool_decide;
        (split; [try discriminate; try tauto|]);
        intros ([|] & ? & _); try lra; try congruence; reflexivity. }
  rewrite <- Hlow.
  pose proof (overallFeedback_in (score r)) as Hov.
  pose proof (upperPart_cases r) as Hu.
  pose proof (tipPart_cases r t) as Ht.
  rewrite elem_of_cons, !elem_of_app. split.
  - intros [H|[H|[H|H]]].
    + exfalso. rewrite <- H in Hov. unfold overallMessages in Hov.
      repeat (apply elem_of_cons in Hov as [Hov|Hov]; [discriminate Hov|]).
      now apply elem_of_nil in Hov.
    + exfalso. destruct Hu as [Hu|[Hu|[l Hu]]]; rewrite Hu in H;
        [now apply elem_of_nil in H| |];
        apply list_elem_of_singleton in H; discriminate H.
    + destruct (lowerPart_cases r t) as [Hl|Hl]; [|exact Hl].
      rewrite Hl in H. now apply elem_of_nil in H.
    + exfalso. destruct Ht as [Ht|(m & Hm & Ht)]; rewrite Ht in H;
        [now apply elem_of_nil in H|].
      apply list_elem_of_singleton in H. subst m. unfold poseTips in Hm.
      repeat (apply elem_of_cons in Hm as [Hm|Hm]; [discriminate Hm|]).
      now apply elem_of_nil in Hm.
  - intros ->. right. right. left. left.
Qed.

(** X10.  The pose tip is the tip of the template's id.  With a score below
    70 and one of the five ids it is the last message; and a tip is in the
    list only then, and is that one. *)
Theorem getPoseFeedback_tip (r : PoseScoreResult) (t : PoseTemplate) :
  (∀ m, tipOf (tpl_id t) = Some m → score r < 70 →
        last (getPoseFeedback r t) = Some m)
  ∧ (∀ m, m ∈ poseTips → m ∈ getPoseFeedback r t →
          score r < 70 ∧ tipOf (tpl_id t) = Some m).
Proof.
  rewrite getPoseFeedback_parts. split.
  - intros m Hm Hlt. unfold tipPart. rewrite Hm.
    apply js_lt_spec in Hlt. rewrite Hlt.
    rewrite !app_comm_cons, !app_assoc. apply last_snoc.
  - intros m Hm Hin.
    assert (m ∈ tipPart r t) as Htip.
    { apply elem_of_cons in Hin as [->|Hin].
      - exfalso. exact (poseTip_not_overall _ Hm (overallFeedback_in _)).
      - rewrite !elem_of_app in Hin. destruct Hin as [H|[H|H]]; [| |exact H]; exfalso.
        + unfold poseTips in Hm.
          destruct (upperPart_cases r) as [Hu|[Hu|[l Hu]]]; rewrite Hu in H;
            [now apply elem_of_nil in H| |];
            apply list_elem_of_singleton in H; subst m;
            repeat (apply elem_of_cons in Hm as [Hm|Hm]; [discriminate Hm|]);
            now apply elem_of_nil in Hm.
        + unfold poseTips in Hm.
          destruct (lowerPart_cases r t) as [Hl|Hl]; rewrite Hl in H;
            [now apply elem_of_nil in H|].
          apply list_elem_of_singleton in H; subst m.
          repeat (apply elem_of_cons in Hm as [Hm|Hm]; [discriminate Hm|]).
          now apply elem_of_nil in Hm. }
    unfold tipPart in Htip. destruct (tipOf (tpl_id t)) as [m'|];
      [|now apply elem_of_nil in Htip].
    destruct (js_lt (score r) 70) eqn:E; [|now apply elem_of_nil in Htip].
    apply list_elem_of_singleton in Htip as ->. split; [now apply js_lt_spec|reflexivity].
Qed.

(** X11.  The message about missing upper body parts goes by their number
    among the missing keypoints: none, no such message; one to three, the
    second message names them, the first underscore of each read as a space;
    more than three, the second message is the general one. *)
Theorem getPoseFeedback_upper_body (r : PoseScoreResult) (t : PoseTemplate) :
  let n := length (missingUpper r) in
  (n = 0%nat → ∀ m, m ∈ getPoseFeedback r t →
                    m ≠ msg_several_upper ∧ ∀ l, m ≠ msg_make_sure l)
  ∧ ((1 <= n <= 3)%nat →
       getPoseFeedback r t !! 1%nat
       = Some (msg_make_sure (map (replace_first "_"%char " "%char) (missingUpper r))))
  ∧ ((3 < n)%nat → getPoseFeedback r t !! 1%nat = Some msg_several_upper).
Proof.
  intros n. subst n. rewrite getPoseFeedback_parts. unfold upperPart.
  destruct (missingUpper r) as [|u us] eqn:Eu; cbn [length].
  - split; [|split; intros; lia]. intros _ m Hin. cbn [app] in Hin.
    pose proof (overallFeedback_in (score r)) as Hov. unfold overallMessages in Hov.
    apply elem_of_cons in Hin as [->|Hin].
    + repeat (apply elem_of_cons in Hov as [Hov|Hov];
              [rewrite Hov; split; [discriminate|intros l; discriminate]|]).
      now apply elem_of_nil in Hov.
    + apply elem_of_app in Hin as [H|H].
      * destruct (lowerPart_cases r t) as [Hl|Hl]; rewrite Hl in H;
          [now apply elem_of_nil in H|].
        apply list_elem_of_singleton in H as ->.
        split; [discriminate|intros l; discriminate].
      * destruct (tipPart_cases r t) as [Ht|(m' & Hm' & Ht)]; rewrite Ht in H;
          [now apply elem_of_nil in H|].
        apply list_elem_of_singleton in H as ->. unfold poseTips in Hm'.
        repeat (apply elem_of_cons in Hm' as [->|Hm'];
                [split; [discriminate|intros l; discriminate]|]).
        now apply elem_of_nil in Hm'.
  - split; [intros; lia|]. split; intros Hn.
    + destruct (Nat.leb_spec (S (length us)) 3); [reflexivity|lia].
    + destruct (Nat.leb_spec (S (length us)) 3); [lia|reflexivity].
Qed.

(** X12.  End to end: for a pose that shows every part of a non-empty
    template exactly on its target, the feedback is the single message that
    the pose is mastered. *)
Theorem perfect_pose_feedback (pose : Pose) (template : PoseTemplate) (w h : R) :
  0 < w → 0 < h →
  tpl_keypoints template ≠ [] →
  (∀ n target, (n, target) ∈ tpl_keypoints template →
     ∃ k, detected pose !! n = Some k
          ∧ kp_x k = pt_x target * w ∧ kp_y k = pt_y target * h) →
  getPoseFeedback (scorePose pose template w h) template = [msg_mastered].
Proof.
  intros Hw Hh Hne Hall.
  rewrite (scorePose_on_targets pose template w h Hw Hh Hne Hall).
  rewrite getPoseFeedback_parts.
  unfold upperPart, lowerPart, tipPart, missingUpper, missingLower, overallFeedback,
    js_ge, js_lt.
  cbn [score missingKeypoints List.filter].
  rewrite bool_decide_eq_true_2 by lra. rewrite bool_decide_eq_false_2 by lra.
  now destruct (tipOf _).
Qed.

Lemma perfect_pose_feedback_witness :
  0 < 640 ∧ 0 < 480
  ∧ getPoseFeedback (scorePose MoreSamples.pose_hit MoreSamples.one_part 640 480)
      MoreSamples.one_part
    = [msg_mastered].
Proof.
  split; [lra|]. split; [lra|].
  apply (perfect_pose_feedback MoreSamples.pose_hit MoreSamples.one_part 640 480);
    [lra|lra|discriminate|].
  intros n target Hin. cbn in Hin.
  apply list_elem_of_singleton in Hin. injection Hin as -> ->.
  exists (MoreSamples.nose_at 320 240). unfold MoreSamples.pose_hit.
  rewrite detected_nose, lookup_insert_eq. cbn. repeat split; lra.
Defined.

(** ** [analyzePose]: the report of a mode *)

Import AnalyzeReport.

Section Report.
Variable getKeypoint : string → option Keypoint.

Lemma runs_items (c : Checks) (b : bool) (item : PoseFeedback) :
  feedbackItems (runs c b item) = feedbackItems c ++ opt b item
  ∧ isPerfect (runs c b item) = isPerfect c && negb b.
Proof.
  unfold runs, opt, report. destruct b; cbn.
  - now rewrite andb_false_r.
  - now rewrite app_nil_r, andb_true_r.
Qed.

Lemma checkLevel_runs (a b : string) (item : PoseFeedback) (c : Checks) :
  checkLevel (getKeypoint a) (getKeypoint b) item c
  = runs c (tilted getKeypoint a b) item.
Proof.
  unfold checkLevel, runs, tilted.
  destruct (getKeypoint a), (getKeypoint b); reflexivity.
Qed.

Lemma tilted_seen (a b : string) :
  tilted getKeypoint a b = true →
  is_Some (getKeypoint a) ∧ is_Some (getKeypoint b).
Proof.
  unfold tilted. destruct (getKeypoint a), (getKeypoint b); try discriminate; eauto.
Qed.

Lemma hasUpperBody_tilted :
  (if hasUpperBody getKeypoint
   then tilted getKeypoint "left_shoulder" "right_shoulder" else false)
  = tilted getKeypoint "left_shoulder" "right_shoulder".
Proof.
  unfold hasUpperBody, tilted.
  destruct (getKeypoint "left_shoulder"), (getKeypoint "right_shoulder");
    reflexivity.
Qed.

Lemma hasLowerBody_tilted :
  hasLowerBody getKeypoint && tilted getKeypoint "left_hip" "right_hip"
  = tilted getKeypoint "left_hip" "right_hip".
Proof.
  unfold hasLowerBody, tilted.
  destruct (getKeypoint "left_hip"), (getKeypoint "right_hip"); reflexivity.
Qed.

Lemma fitnessChecks_runs (c : Checks) :
  fitnessChecks getKeypoint c
  = runs (runs (runs (runs c (tilted getKeypoint "left_shoulder" "right_shoulder")
                        item_shoulders)
                   (tilted getKeypoint "left_hip" "right_hip") item_hips)
              (hasLowerBody getKeypoint && tilted getKeypoint "left_knee" "right_knee")
              item_knees)
         (leaning getKeypoint) item_back.
Proof.
  unfold fitnessChecks, lowerBodyChecks. cbv zeta. rewrite !checkLevel_runs.
  unfold backCheck, leaning, hasUpperBody, hasLowerBody, tilted.
  destruct (getKeypoint "left_shoulder") as [ls|], (getKeypoint "right_shoulder") as [rs|],
           (getKeypoint "left_hip") as [lh|], (getKeypoint "right_hip") as [rh|];
    reflexivity.
Qed.

End Report.

Section ReportMore.
Variable getKeypoint : string → option Keypoint.

Lemma photographyChecks_runs (c : Checks) :
  photographyChecks getKeypoint c
  = runs (runs (runs c (tilted getKeypoint "left_eye" "right_eye") item_head)
              (offCentre getKeypoint) item_position)
         (tilted getKeypoint "left_shoulder" "right_shoulder") item_photo_shoulders.
Proof.
  unfold photographyChecks, faceChecks. cbv zeta. rewrite !checkLevel_runs.
  unfold offCentre, hasUpperBody, hasFace, tilted.
  destruct (getKeypoint "nose") as [n|], (getKeypoint "left_eye") as [le|],
           (getKeypoint "right_eye") as [re|],
           (getKeypoint "left_shoulder") as [ls|],
           (getKeypoint "right_shoulder") as [rs|];
    reflexivity.
Qed.

Lemma checks_report (mode : PoseMode) :
  let c := match mode with
           | fitness => fitnessChecks getKeypoint (mkChecks [] true)
           | photography => photographyChecks getKeypoint (mkChecks [] true)
           end in
  feedbackItems c = reportOf getKeypoint mode
  ∧ (isPerfect c = true → reportOf getKeypoint mode = []).
Proof.
  destruct mode; cbv zeta; unfold reportOf.
  - rewrite fitnessChecks_runs.
    destruct (tilted getKeypoint "left_shoulder" "right_shoulder"),
             (tilted getKeypoint "left_hip" "right_hip"),
             (hasLowerBody getKeypoint && tilted getKeypoint "left_knee" "right_knee"),
             (leaning getKeypoint); cbn; split; (reflexivity || discriminate).
  - rewrite photographyChecks_runs.
    destruct (tilted getKeypoint "left_eye" "right_eye"), (offCentre getKeypoint),
             (tilted getKeypoint "left_shoulder" "right_shoulder");
      cbn; split; (reflexivity || discriminate).
Qed.

Lemma positiveFeedback_closing (mode : PoseMode) (c : Checks) :
  positiveFeedback getKeypoint mode c
  = if (length (feedbackItems c) =? 0)%nat || isPerfect c
    then feedbackItems c ++ [closingItem getKeypoint mode]
    else feedbackItems c.
Proof.
  unfold positiveFeedback, closingItem.
  destruct (_ || _); [|reflexivity].
  destruct (_ && _); [reflexivity|].
  destruct (hasUpperBody _); [reflexivity|]. now destruct (hasFace _).
Qed.

(** The checks of a mode followed by the closing block. *)
Lemma positiveFeedback_report (mode : PoseMode) :
  positiveFeedback getKeypoint mode
    (match mode with
     | fitness => fitnessChecks getKeypoint (mkChecks [] true)
     | photography => photographyChecks getKeypoint (mkChecks [] true)
     end)
  = match reportOf getKeypoint mode with
    | [] => [closingItem getKeypoint mode]
    | l => l
    end.
Proof.
  rewrite positiveFeedback_closing.
  destruct (checks_report mode) as [Hitems Hperfect]. cbv zeta in *.
  rewrite Hitems.
  destruct (reportOf getKeypoint mode) as [|i l] eqn:E; [reflexivity|].
  cbn [length Nat.eqb orb].
  destruct (isPerfect _); [|reflexivity]. now specialize (Hperfect eq_refl).
Qed.

Lemma tilted_iff (a b : string) :
  tilted getKeypoint a b = true
  ↔ ∃ l r, getKeypoint a = Some l ∧ getKeypoint b = Some r ∧ 0.1 < slope l r.
Proof.
  unfold tilted. destruct (getKeypoint a) as [l|], (getKeypoint b) as [r|].
  - rewrite js_gt_spec. split; [eauto|]. now intros (? & ? & [= <-] & [= <-] & ?).
  - split; [discriminate|]. now intros (? & ? & _ & ? & _).
  - split; [discriminate|]. now intros (? & ? & ? & _).
  - split; [discriminate|]. now intros (? & ? & ? & _).
Qed.



Lemma offCentre_iff :
  offCentre getKeypoint = true
  ↔ ∃ nose, getKeypoint "nose" = Some nose ∧ 0.2 < Rabs (kp_x nose - 0.5).
Proof.
  unfold offCentre. destruct (getKeypoint "nose") as [n|].
  - rewrite js_gt_spec. split; [eauto|]. now intros (? & [= <-] & ?).
  - split; [discriminate|]. now intros (? & ? & _).
Qed.

End ReportMore.

Lemma elem_of_opt (b : bool) (x y : PoseFeedback) : x ∈ opt b y ↔ b = true ∧ x = y.
Proof.
  unfold opt. destruct b.
  - rewrite list_elem_of_singleton. tauto.
  - rewrite elem_of_nil. split; [tauto|]. now intros [? _].
Qed.

Lemma reportOf_ext (g1 g2 : string → option Keypoint) (mode : PoseMode) :
  (∀ n, g1 n = g2 n) →
  reportOf g1 mode = reportOf g2 mode ∧ closingItem g1 mode = closingItem g2 mode.
Proof.
  intros H.
  unfold reportOf, closingItem, tilted, leaning, offCentre, hasUpperBody, hasLowerBody,
    hasFace.
  now rewrite !H.
Qed.

(** With three confident keypoints, [analyzePose] returns the report of the
    mode, or the closing message when the report is empty. *)
Lemma analyzePose_report (pose : Pose) (all : list Keypoint) (mode : PoseMode) :
  pose_keypoints pose = Some all →
  (3 <= length (List.filter (confidenceAbove 0.2) all))%nat →
  analyzePose pose mode
  = match reportOf (seen pose) mode with
    | [] => [closingItem (seen pose) mode]
    | l => l
    end.
Proof.
  intros Hall Hlen. unfold analyzePose. rewrite Hall.
  rewrite <- filter_confident in Hlen.
  destruct (Nat.ltb_spec (length (List.filter confident all)) 3) as [?|_]; [lia|].
  cbv zeta.
  set (g := fun name : string => _).
  rewrite (positiveFeedback_report g mode).
  destruct (reportOf_ext g (seen pose) mode) as [-> ->]; [|reflexivity].
  intros n. unfold g, seen. now rewrite Hall.
Qed.

Lemma opt_sublist (b : bool) (x : PoseFeedback) : opt b x `sublist_of` [x].
Proof. destruct b; [reflexivity|apply sublist_nil_l]. Qed.

Lemma reportOf_sublist (g : string → option Keypoint) (mode : PoseMode) :
  reportOf g mode `sublist_of` modeItems mode.
Proof.
  destruct mode; unfold reportOf, modeItems.
  - apply (sublist_app _ [item_shoulders] _ [item_hips; item_knees; item_back]);
      [apply opt_sublist|].
    apply (sublist_app _ [item_hips] _ [item_knees; item_back]); [apply opt_sublist|].
    apply (sublist_app _ [item_knees] _ [item_back]); apply opt_sublist.
  - apply (sublist_app _ [item_head] _ [item_position; item_photo_shoulders]);
      [apply opt_sublist|].
    apply (sublist_app _ [item_position] _ [item_photo_shoulders]); apply opt_sublist.
Qed.

Lemma modeItems_NoDup (mode : PoseMode) : NoDup (modeItems mode).
Proof.
  destruct mode; unfold modeItems;
    repeat (apply NoDup_cons; split;
            [intros H; repeat (apply elem_of_cons in H as [H|H]; [discriminate H|]);
             now apply elem_of_nil in H|]);
    apply NoDup_nil_2.
Qed.

Lemma modeItems_part (mode : PoseMode) (item : PoseFeedback) :
  item ∈ modeItems mode → part item ≠ None.
Proof.
  destruct mode; unfold modeItems; intros H;
    repeat (apply elem_of_cons in H as [->|H]; [discriminate|]);
    now apply elem_of_nil in H.
Qed.

Lemma closingItem_part (g : string → option Keypoint) (mode : PoseMode) :
  part (closingItem g mode) = None.
Proof.
  unfold closingItem.
  destruct (_ && _); [reflexivity|].
  destruct (hasUpperBody g); [reflexivity|]. now destruct (hasFace g).
Qed.

(** A check item is in the list exactly when it is in the report. *)
Lemma in_analyzePose_report (pose : Pose) (all : list Keypoint) (mode : PoseMode)
    (item : PoseFeedback) :
  pose_keypoints pose = Some all →
  (3 <= length (List.filter (confidenceAbove 0.2) all))%nat →
  item ∈ modeItems mode →
  (item ∈ analyzePose pose mode ↔ item ∈ reportOf (seen pose) mode).
Proof.
  intros Hall Hlen Hitem. rewrite (analyzePose_report pose all mode Hall Hlen).
  destruct (reportOf (seen pose) mode) as [|i l]; [|reflexivity].
  rewrite list_elem_of_singleton, elem_of_nil. split; [|tauto].
  intros ->. apply (modeItems_part _ _ Hitem), closingItem_part.
Qed.

(** X13.  With three confident keypoints the list of [analyzePose] is either
    the single closing message (a success message for the widest region
    seen, or the hint to show more), or a non-empty list of check messages
    of the mode, in the order of the checks and each at most once; so it has
    at most four messages in fitness mode and three in photography mode. *)
Theorem analyzePose_shape (pose : Pose) (all : list Keypoint) (mode : PoseMode) :
  pose_keypoints pose = Some all →
  (3 <= length (List.filter (confidenceAbove 0.2) all))%nat →
  (analyzePose pose mode = [closingItem (seen pose) mode]
   ∨ (analyzePose pose mode ≠ []
      ∧ (analyzePose pose mode `sublist_of` modeItems mode)))
  ∧ (closingItem (seen pose) mode ∉ checkItems)
  ∧ NoDup (analyzePose pose mode)
  ∧ (length (analyzePose pose mode) <= length (modeItems mode))%nat.
Proof.
  intros Hall Hlen. rewrite (analyzePose_report pose all mode Hall Hlen).
  pose proof (reportOf_sublist (seen pose) mode) as Hsub.
  split; [|split; [|split]].
  - destruct (reportOf (seen pose) mode) as [|i l]; [now left|right].
    split; [discriminate|exact Hsub].
  - intros Hin. pose proof (closingItem_part (seen pose) mode) as Hp.
    unfold checkItems in Hin.
    repeat (apply elem_of_cons in Hin as [Hin|Hin]; [rewrite Hin in Hp; discriminate Hp|]).
    now apply elem_of_nil in Hin.
  - destruct (reportOf (seen pose) mode) as [|i l] eqn:E.
    + apply NoDup_singleton.
    + eapply sublist_NoDup; [apply modeItems_NoDup|exact Hsub].
  - destruct (reportOf (seen pose) mode) as [|i l] eqn:E.
    + destruct mode; cbn; lia.
    + now apply sublist_length.
Qed.

Lemma analyzePose_shape_witness :
  pose_keypoints Samples.pose_level
    = Some [ Samples.named "left_shoulder" 100 100;
             Samples.named "right_shoulder" 200 100; Samples.named "nose" 150 50 ]
  ∧ (3 <= length (List.filter (confidenceAbove 0.2)
                    [ Samples.named "left_shoulder" 100 100;
                      Samples.named "right_shoulder" 200 100;
                      Samples.named "nose" 150 50 ]))%nat
  ∧ NoDup (analyzePose Samples.pose_level fitness).
Proof.
  assert (H2 : (3 <= length (List.filter (confidenceAbove 0.2)
                    [ Samples.named "left_shoulder" 100 100;
                      Samples.named "right_shoulder" 200 100;
                      Samples.named "nose" 150 50 ]))%nat).
  { rewrite <- filter_confident, sample_confident. cbn [length]. lia. }
  split; [reflexivity|]. split; [exact H2|].
  exact (proj1 (proj2 (proj2 (analyzePose_shape Samples.pose_level _ fitness eq_refl H2)))).
Defined.



(** X16.  In photography mode, with three confident keypoints: the head
    message is emitted exactly when both eyes are seen with a clamped slope
    above 0.1, the centring message exactly when the nose is seen more than
    0.2 from x = 0.5, and the shoulder message exactly when both shoulders
    are seen with a clamped slope above 0.1. *)
Theorem analyzePose_photography (pose : Pose) (all : list Keypoint) :
  pose_keypoints pose = Some all →
  (3 <= length (List.filter (confidenceAbove 0.2) all))%nat →
  (item_head ∈ analyzePose pose photography
   ↔ ∃ l r, seen pose "left_eye" = Some l ∧ seen pose "right_eye" = Some r
            ∧ 0.1 < slope l r)
  ∧ (item_position ∈ analyzePose pose photography
     ↔ ∃ nose, seen pose "nose" = Some nose ∧ 0.2 < Rabs (kp_x nose - 0.5))
  ∧ (item_photo_shoulders ∈ analyzePose pose photography
     ↔ ∃ l r, seen pose "left_shoulder" = Some l ∧ seen pose "right_shoulder" = Some r
              ∧ 0.1 < slope l r).
Proof.
  intros Hall Hlen. split; [|split].
  - rewrite (in_analyzePose_report pose all photography _ Hall Hlen)
      by (unfold modeItems; repeat constructor).
    rewrite <- tilted_iff. unfold reportOf.
    rewrite !elem_of_app, !elem_of_opt. split.
    + intros [[H _]|[[_ H]|[_ H]]]; (discriminate H || exact H).
    + intros H. left. auto.
  - rewrite (in_analyzePose_report pose all photography _ Hall Hlen)
      by (unfold modeItems; repeat constructor).
    rewrite <- offCentre_iff. unfold reportOf.
    rewrite !elem_of_app, !elem_of_opt. split.
    + intros [[_ H]|[[H _]|[_ H]]]; (discriminate H || exact H).
    + intros H. right. left. auto.
  - rewrite (in_analyzePose_report pose all photography _ Hall Hlen)
      by (unfold modeItems; repeat constructor).
    rewrite <- tilted_iff. unfold reportOf.
    rewrite !elem_of_app, !elem_of_opt. split.
    + intros [[_ H]|[[_ H]|[H _]]]; (discriminate H || exact H).
    + intros H. right. right. auto.
Qed.

Lemma pose_tilted_confident :
  (3 <= length (List.filter (confidenceAbove 0.2)
                  [ Samples.named "left_shoulder" 100 100;
                    Samples.named "right_shoulder" 200 140;
                    Samples.named "nose" 150 50 ]))%nat.
Proof. rewrite <- filter_confident, sample_confident. cbn [length]. lia. Qed.



Lemma analyzePose_photography_witness :
  pose_keypoints Samples.pose_tilted
    = Some [ Samples.named "left_shoulder" 100 100;
             Samples.named "right_shoulder" 200 140; Samples.named "nose" 150 50 ]
  ∧ (3 <= length (List.filter (confidenceAbove 0.2)
                    [ Samples.named "left_shoulder" 100 100;
                      Samples.named "right_shoulder" 200 140;
                      Samples.named "nose" 150 50 ]))%nat
  ∧ (item_position ∈ analyzePose Samples.pose_tilted photography
     ↔ ∃ nose, seen Samples.pose_tilted "nose" = Some nose
               ∧ 0.2 < Rabs (kp_x nose - 0.5)).
Proof.
  split; [reflexivity|]. split; [exact pose_tilted_confident|].
  exact (proj1 (proj2 (analyzePose_photography Samples.pose_tilted _ eq_refl
                         pose_tilted_confident))).
Defined.

(** In photography mode the sample with the nose at x = 150 and the right
    shoulder 40 lower gets the centring message and the shoulder message. *)
Example analyzePose_tilted_photography :
  analyzePose Samples.pose_tilted photography = [item_position; item_photo_shoulders].
Proof.
  rewrite (analyzePose_report Samples.pose_tilted _ photography eq_refl
             pose_tilted_confident).
  assert (seen Samples.pose_tilted "left_eye" = None) as He1
    by (unfold Samples.pose_tilted; rewrite sample_seen; reflexivity).
  assert (seen Samples.pose_tilted "nose" = Some (Samples.named "nose" 150 50)) as Hn
    by (unfold Samples.pose_tilted; rewrite sample_seen; reflexivity).
  assert (seen Samples.pose_tilted "left_shoulder"
          = Some (Samples.named "left_shoulder" 100 100)) as Hl
    by (unfold Samples.pose_tilted; rewrite sample_seen; reflexivity).
  assert (seen Samples.pose_tilted "right_shoulder"
          = Some (Samples.named "right_shoulder" 200 140)) as Hr
    by (unfold Samples.pose_tilted; rewrite sample_seen; reflexivity).
  unfold reportOf, tilted, offCentre. rewrite He1, Hn, Hl, Hr.
  rewrite (proj2 (js_gt_spec (slope _ _) 0.1)) by (rewrite slope_tilted; lra).
  rewrite (proj2 (js_gt_spec (Math_abs _) 0.2)); [reflexivity|].
  unfold Math_abs, Samples.named. cbn [kp_x]. rewrite Rabs_right; lra.
Qed.

(** ** [analyzePoseForFeedback] *)

Import poseScoringGeneral.

Section General.
Variable m : gmap string Keypoint.

Lemma essentialFeedback_app (feedback : list PartFeedback) :
  essentialFeedback m feedback = feedback ++ essentialFeedback m [].
Proof.
  unfold essentialFeedback, push. cbv zeta.
  destruct (List.filter _ essentialKeypoints); [now rewrite app_nil_r|reflexivity].
Qed.

Lemma shoulderFeedback_app (feedback : list PartFeedback) :
  shoulderFeedback m feedback = feedback ++ shoulderFeedback m [].
Proof.
  unfold shoulderFeedback, push. cbv zeta.
  destruct (m !! "left_shoulder"%string), (m !! "right_shoulder"%string);
    try (now rewrite app_nil_r).
  destruct (js_gt _ 30); [reflexivity|].
  destruct (js_lt _ 10); [reflexivity|now rewrite app_nil_r].
Qed.

Lemma headFeedback_app (feedback : list PartFeedback) :
  headFeedback m feedback = feedback ++ headFeedback m [].
Proof.
  unfold headFeedback, push. cbv zeta.
  destruct (m !! "nose"%string), (m !! "left_shoulder"%string),
           (m !! "right_shoulder"%string); try (now rewrite app_nil_r).
  destruct (js_gt _ 30); [reflexivity|now rewrite app_nil_r].
Qed.

(** The warning about missing parts, if any, is a single warning. *)
Lemma essentialFeedback_cases :
  essentialFeedback m [] = []
  ∨ ∃ first l, essentialFeedback m [] = [mkPart first (msg_not_visible l) warning].
Proof.
  unfold essentialFeedback, push. cbv zeta.
  destruct (List.filter _ essentialKeypoints); [now left|right; eauto].
Qed.

Lemma shoulderFeedback_level :
  item_shoulders_level ∈ shoulderFeedback m []
  ↔ ∃ l r, m !! "left_shoulder"%string = Some l ∧ m !! "right_shoulder"%string = Some r
           ∧ 30 < Rabs (kp_y l - kp_y r).
Proof.
  unfold shoulderFeedback, push, Math_abs. cbv zeta.
  destruct (m !! "left_shoulder"%string) as [l|], (m !! "right_shoulder"%string) as [r|];
    try (rewrite elem_of_nil; split; [tauto|];
         intros (? & ? & ? & ? & _); discriminate).
  destruct (js_gt _ 30) eqn:E.
  - apply js_gt_spec in E. split; [eauto|]. intros _. left.
  - assert (¬ 30 < Rabs (kp_y l - kp_y r)) as Hn by (rewrite <- js_gt_spec; congruence).
    split.
    + destruct (js_lt _ 10); cbn [app].
      * intros H%list_elem_of_singleton. discriminate H.
      * intros H. now apply elem_of_nil in H.
    + intros (? & ? & [= <-] & [= <-] & ?). tauto.
Qed.

Lemma shoulderFeedback_great :
  item_shoulders_great ∈ shoulderFeedback m []
  ↔ ∃ l r, m !! "left_shoulder"%string = Some l ∧ m !! "right_shoulder"%string = Some r
           ∧ Rabs (kp_y l - kp_y r) < 10.
Proof.
  unfold shoulderFeedback, push, Math_abs. cbv zeta.
  destruct (m !! "left_shoulder"%string) as [l|], (m !! "right_shoulder"%string) as [r|];
    try (rewrite elem_of_nil; split; [tauto|];
         intros (? & ? & ? & ? & _); discriminate).
  destruct (js_gt _ 30) eqn:E.
  - apply js_gt_spec in E. cbn [app]. split.
    + intros H%list_elem_of_singleton. discriminate H.
    + intros (? & ? & [= <-] & [= <-] & ?). lra.
  - destruct (js_lt _ 10) eqn:E2.
    + apply js_lt_spec in E2. split; [eauto|]. intros _. left.
    + assert (¬ Rabs (kp_y l - kp_y r) < 10) as Hn
        by (rewrite <- js_lt_spec; congruence).
      rewrite elem_of_nil. split; [tauto|].
      intros (? & ? & [= <-] & [= <-] & ?). tauto.
Qed.

Lemma headFeedback_iff :
  item_head_align ∈ headFeedback m []
  ↔ ∃ n l r, m !! "nose"%string = Some n ∧ m !! "left_shoulder"%string = Some l
             ∧ m !! "right_shoulder"%string = Some r
             ∧ 30 < Rabs (kp_x n - (kp_x l + kp_x r) / 2).
Proof.
  unfold headFeedback, push, Math_abs. cbv zeta.
  destruct (m !! "nose"%string) as [n|], (m !! "left_shoulder"%string) as [l|],
           (m !! "right_shoulder"%string) as [r|];
    try (rewrite elem_of_nil; split; [tauto|];
         intros (? & ? & ? & ? & ? & ? & _); discriminate).
  destruct (js_gt _ 30) eqn:E.
  - apply js_gt_spec in E. split; [intros _; exists n, l, r; auto|]. intros _. left.
  - assert (¬ 30 < Rabs (kp_x n - (kp_x l + kp_x r) / 2)) as Hn
      by (rewrite <- js_gt_spec; congruence).
    rewrite elem_of_nil. split; [tauto|].
    intros (? & ? & ? & [= <-] & [= <-] & [= <-] & ?). tauto.
Qed.

Lemma shoulderFeedback_cases :
  shoulderFeedback m [] = [] ∨ shoulderFeedback m [] = [item_shoulders_level]
  ∨ shoulderFeedback m [] = [item_shoulders_great].
Proof.
  unfold shoulderFeedback, push. cbv zeta.
  destruct (m !! "left_shoulder"%string), (m !! "right_shoulder"%string); auto.
  destruct (js_gt _ 30); auto. destruct (js_lt _ 10); auto.
Qed.

Lemma headFeedback_cases :
  headFeedback m [] = [] ∨ headFeedback m [] = [item_head_align].
Proof.
  unfold headFeedback, push. cbv zeta.
  destruct (m !! "nose"%string), (m !! "left_shoulder"%string),
           (m !! "right_shoulder"%string); auto.
  destruct (js_gt _ 30); auto.
Qed.

End General.

(** For a pose with keypoints the list is the warning about missing parts,
    the shoulder message and the head message, each if present. *)
Lemma analyzePoseForFeedback_parts (pose : Pose) (k : Keypoint) (ks : list Keypoint) :
  pose_keypoints pose = Some (k :: ks) →
  analyzePoseForFeedback pose
  = essentialFeedback (detected pose) [] ++ shoulderFeedback (detected pose) []
      ++ headFeedback (detected pose) [].
Proof.
  intros Hk. unfold analyzePoseForFeedback, detected. rewrite Hk. cbv zeta.
  rewrite headFeedback_app, shoulderFeedback_app. now rewrite <- app_assoc.
Qed.

Lemma analyzePoseForFeedback_empty (pose : Pose) :
  pose_keypoints pose = None ∨ pose_keypoints pose = Some [] →
  analyzePoseForFeedback pose = [].
Proof. unfold analyzePoseForFeedback. now intros [-> | ->]. Qed.

Lemma detected_keypoints (pose : Pose) (n : string) (v : Keypoint) :
  detected pose !! n = Some v → ∃ k ks, pose_keypoints pose = Some (k :: ks).
Proof.
  unfold detected. destruct (pose_keypoints pose) as [[|k ks]|]; [| eauto |].
  - unfold poseScoring.keypointMap. cbn. now rewrite lookup_empty.
  - now rewrite lookup_empty.
Qed.

(** X17.  A pose without keypoints gets no feedback at all, while a pose
    whose keypoints are all unusable gets exactly one warning: it names all
    nine essential parts, underscores read as spaces, and is attached to the
    nose. *)
Theorem analyzePoseForFeedback_undetected (pose : Pose) :
  (pose_keypoints pose = None ∨ pose_keypoints pose = Some [] →
   analyzePoseForFeedback pose = [])
  ∧ (∀ k ks, pose_keypoints pose = Some (k :: ks) → nothingDetected pose →
       analyzePoseForFeedback pose
       = [ mkPart "nose"
             ("Some key upper body parts aren't visible: nose, left eye, right eye, "
              +:+ "left ear, right ear, left shoulder, right shoulder, "
              +:+ "left elbow, right elbow")
             warning ]).
Proof.
  split; [apply analyzePoseForFeedback_empty|].
  intros k ks Hk Hnone.
  rewrite (analyzePoseForFeedback_parts pose k ks Hk).
  rewrite (nothingDetected_empty pose Hnone). reflexivity.
Qed.

(** The shoulder and head messages are in the list exactly when they are in
    their own block. *)
Lemma in_analyzePoseForFeedback (pose : Pose) (item : PartFeedback) :
  item ∈ [item_shoulders_level; item_shoulders_great; item_head_align] →
  (item ∈ analyzePoseForFeedback pose
   ↔ item ∈ shoulderFeedback (detected pose) [] ∨ item ∈ headFeedback (detected pose) []).
Proof.
  intros Hitem.
  assert (Hempty : pose_keypoints pose = None ∨ pose_keypoints pose = Some [] →
                   item ∈ analyzePoseForFeedback pose
                   ↔ item ∈ shoulderFeedback (detected pose) []
                     ∨ item ∈ headFeedback (detected pose) []).
  { intros He. rewrite (analyzePoseForFeedback_empty pose He).
    assert (detected pose = ∅) as -> by (unfold detected; now destruct He as [-> | ->]).
    change (shoulderFeedback ∅ []) with (@nil PartFeedback).
    change (headFeedback ∅ []) with (@nil PartFeedback).
    tauto. }
  destruct (pose_keypoints pose) as [[|k ks]|] eqn:Hk; [auto| |auto].
  rewrite (analyzePoseForFeedback_parts pose k ks Hk), !elem_of_app.
  split; [|tauto]. intros [H|H]; [exfalso|exact H].
  destruct (essentialFeedback_cases (detected pose)) as [He|(first & l & He)];
    rewrite He in H; [now apply elem_of_nil in H|].
  apply list_elem_of_singleton in H. subst item.
  repeat (apply elem_of_cons in Hitem as [Hitem|Hitem];
          [injection Hitem as _ Hm; discriminate Hm|]).
  now apply elem_of_nil in Hitem.
Qed.

(** X18.  The shoulder warning is emitted exactly when both shoulders are
    detected and differ in y by more than 30, the shoulder praise exactly
    when they differ by less than 10; a difference from 10 to 30 gives
    neither, and the two never come together. *)
Theorem analyzePoseForFeedback_shoulders (pose : Pose) :
  (item_shoulders_level ∈ analyzePoseForFeedback pose
   ↔ ∃ l r, detected pose !! "left_shoulder"%string = Some l
            ∧ detected pose !! "right_shoulder"%string = Some r
            ∧ 30 < Rabs (kp_y l - kp_y r))
  ∧ (item_shoulders_great ∈ analyzePoseForFeedback pose
     ↔ ∃ l r, detected pose !! "left_shoulder"%string = Some l
              ∧ detected pose !! "right_shoulder"%string = Some r
              ∧ Rabs (kp_y l - kp_y r) < 10)
  ∧ ¬ (item_shoulders_level ∈ analyzePoseForFeedback pose
       ∧ item_shoulders_great ∈ analyzePoseForFeedback pose).
Proof.
  assert (H1 : item_shoulders_level ∈ analyzePoseForFeedback pose
               ↔ item_shoulders_level ∈ shoulderFeedback (detected pose) []).
  { rewrite in_analyzePoseForFeedback by repeat constructor.
    split; [intros [H|H]; [exact H|]|tauto].
    destruct (headFeedback_cases (detected pose)) as [E|E]; rewrite E in H;
      [now apply elem_of_nil in H|].
    apply list_elem_of_singleton in H. discriminate H. }
  assert (H2 : item_shoulders_great ∈ analyzePoseForFeedback pose
               ↔ item_shoulders_great ∈ shoulderFeedback (detected pose) []).
  { rewrite in_analyzePoseForFeedback by repeat constructor.
    split; [intros [H|H]; [exact H|]|tauto].
    destruct (headFeedback_cases (detected pose)) as [E|E]; rewrite E in H;
      [now apply elem_of_nil in H|].
    apply list_elem_of_singleton in H. discriminate H. }
  rewrite H1, H2, shoulderFeedback_level, shoulderFeedback_great.
  split; [reflexivity|]. split; [reflexivity|].
  intros [(l & r & Hl & Hr & Hgt) (l' & r' & Hl' & Hr' & Hlt)].
  rewrite Hl in Hl'. rewrite Hr in Hr'. injection Hl' as <-. injection Hr' as <-. lra.
Qed.

(** X19.  The head message is emitted exactly when the nose and both
    shoulders are detected and the nose is more than 30 away, in x, from the
    midpoint of the shoulders. *)
Theorem analyzePoseForFeedback_head (pose : Pose) :
  item_head_align ∈ analyzePoseForFeedback pose
  ↔ ∃ n l r, detected pose !! "nose"%string = Some n
             ∧ detected pose !! "left_shoulder"%string = Some l
             ∧ detected pose !! "right_shoulder"%string = Some r
             ∧ 30 < Rabs (kp_x n - (kp_x l + kp_x r) / 2).
Proof.
  rewrite in_analyzePoseForFeedback by repeat constructor.
  rewrite <- headFeedback_iff. split; [intros [H|H]; [|exact H]|tauto].
  destruct (shoulderFeedback_cases (detected pose)) as [E|[E|E]]; rewrite E in H;
    [now apply elem_of_nil in H| |];
    apply list_elem_of_singleton in H; discriminate H.
Qed.

(** X20.  For a pose with keypoints: when an essential part is not detected
    the first item is the warning, attached to the first such part in the
    order of the table and naming all of them; when all are detected there is
    no such warning; and the list has at most three items. *)
Theorem analyzePoseForFeedback_missing (pose : Pose) (k : Keypoint) (ks : list Keypoint) :
  pose_keypoints pose = Some (k :: ks) →
  let missing :=
    List.filter (fun n => negb (isMatched (detected pose) n)) essentialKeypoints in
  (∀ first rest, missing = first :: rest →
     head (analyzePoseForFeedback pose)
     = Some (mkPart first
               (msg_not_visible (map (replace_first "_"%char " "%char) missing))
               warning))
  ∧ (missing = [] →
     Forall (fun item => item ∈ [item_shoulders_level; item_shoulders_great;
                                 item_head_align])
            (analyzePoseForFeedback pose))
  ∧ (length (analyzePoseForFeedback pose) <= 3)%nat.
Proof.
  intros Hk missing. rewrite (analyzePoseForFeedback_parts pose k ks Hk).
  assert (Hmiss : List.filter
                    (fun kp => negb (bool_decide (is_Some (detected pose !! kp))))
                    essentialKeypoints = missing).
  { apply filter_ext. intros n. unfold isMatched.
    now destruct (detected pose !! n). }
  assert (Hs : Forall (fun item => item ∈ [item_shoulders_level; item_shoulders_great;
                                           item_head_align])
                 (shoulderFeedback (detected pose) [] ++ headFeedback (detected pose) [])).
  { apply Forall_app. split.
    - destruct (shoulderFeedback_cases (detected pose)) as [E|[E|E]]; rewrite E;
        repeat constructor.
    - destruct (headFeedback_cases (detected pose)) as [E|E]; rewrite E;
        repeat constructor. }
  split; [|split].
  - intros first rest Hm. unfold essentialFeedback, push. cbv zeta.
    rewrite Hmiss, Hm. reflexivity.
  - intros Hm. unfold essentialFeedback, push. cbv zeta. rewrite Hmiss, Hm. exact Hs.
  - rewrite !length_app.
    destruct (essentialFeedback_cases (detected pose)) as [E|(? & ? & E)],
             (shoulderFeedback_cases (detected pose)) as [E2|[E2|E2]],
             (headFeedback_cases (detected pose)) as [E3|E3];
      rewrite E, E2, E3; cbn [length]; lia.
Qed.

Lemma analyzePoseForFeedback_missing_witness :
  pose_keypoints MoreSamples.pose_hit = Some [MoreSamples.nose_at 320 240]
  ∧ head (analyzePoseForFeedback MoreSamples.pose_hit)
    = Some (mkPart "left_eye"
              ("Some key upper body parts aren't visible: left eye, right eye, "
               +:+ "left ear, right ear, left shoulder, right shoulder, "
               +:+ "left elbow, right elbow")
              warning).
Proof.
  split; [reflexivity|].
  destruct (analyzePoseForFeedback_missing MoreSamples.pose_hit _ _ eq_refl)
    as (H & _ & _).
  unfold MoreSamples.pose_hit in H. rewrite detected_nose in H.
  exact (H "left_eye"%string _ eq_refl).
Defined.

(** ** [calculateAngle] *)

Import Similar.

Lemma Math_atan2_range (y x : R) : - PI < Math_atan2 y x <= PI.
Proof.
  pose proof PI_RGT_0 as Hpi. unfold Math_atan2.
  pose proof (atan_bound (y / x)) as [Hlo Hhi].
  repeat case_bool_decide; try lra.
  - assert (atan (y / x) <= 0); [|lra].
    assert (y / x <= 0) as [Hneg|Hz].
    { pose proof (Rinv_lt_0_compat x ltac:(assumption)). unfold Rdiv. nra. }
    + left. rewrite <- atan_0. now apply atan_increasing.
    + rewrite Hz, atan_0. lra.
  - assert (0 < atan (y / x)); [|lra].
    rewrite <- atan_0. apply atan_increasing.
    pose proof (Rinv_lt_0_compat x ltac:(assumption)). unfold Rdiv. nra.
Qed.

(** [Math.atan2] does not change when both arguments are scaled by the same
    positive factor. *)
Lemma Math_atan2_scale (s y x : R) :
  0 < s → Math_atan2 (s * y) (s * x) = Math_atan2 y x.
Proof.
  intros Hs. unfold Math_atan2.
  assert (x ≠ 0 → s * y / (s * x) = y / x) as Hq by (intros; field; lra).
  repeat case_bool_decide; try nra; try (rewrite Hq by lra; reflexivity);
    reflexivity.
Qed.

(** X21.  The angle lies between 0 and 180 degrees. *)
Theorem calculateAngle_range (a b c : Point) : 0 <= calculateAngle a b c <= 180.
Proof.
  unfold calculateAngle, Math_abs, Math_PI. cbv zeta.
  set (u := Math_atan2 (pt_y c - pt_y b) (pt_x c - pt_x b)).
  set (v := Math_atan2 (pt_y a - pt_y b) (pt_x a - pt_x b)).
  pose proof (Math_atan2_range (pt_y c - pt_y b) (pt_x c - pt_x b)) as Hu.
  pose proof (Math_atan2_range (pt_y a - pt_y b) (pt_x a - pt_x b)) as Hv.
  fold u in Hu. fold v in Hv.
  pose proof PI_RGT_0 as Hpi. pose proof (Rinv_0_lt_compat PI Hpi) as Hi.
  assert (PI * / PI = 1) as Hone by (apply Rinv_r; lra).
  assert (-360 < (u - v) * 180.0 / PI < 360) as Hr by (unfold Rdiv; nra).
  pose proof (Rabs_pos ((u - v) * 180.0 / PI)) as H0.
  assert (Rabs ((u - v) * 180.0 / PI) < 360) as H360 by (apply Rabs_def1; lra).
  unfold js_gt. case_bool_decide; lra.
Qed.

(** X22.  The angle is the same read from either arm, and it does not change
    when the three points are scaled by a positive factor and shifted
    together (pixels or normalised coordinates of a square frame). *)
Theorem calculateAngle_invariant (a b c : Point) (s dx dy : R) :
  calculateAngle a b c = calculateAngle c b a
  ∧ (0 < s →
     calculateAngle (movePoint s dx dy a) (movePoint s dx dy b) (movePoint s dx dy c)
     = calculateAngle a b c).
Proof.
  split.
  - unfold calculateAngle, Math_abs. cbv zeta.
    replace ((Math_atan2 (pt_y a - pt_y b) (pt_x a - pt_x b)
              - Math_atan2 (pt_y c - pt_y b) (pt_x c - pt_x b)) * 180.0 / Math_PI)
      with (- ((Math_atan2 (pt_y c - pt_y b) (pt_x c - pt_x b)
                - Math_atan2 (pt_y a - pt_y b) (pt_x a - pt_x b)) * 180.0 / Math_PI))
      by (unfold Rdiv; ring).
    now rewrite Rabs_Ropp.
  - intros Hs. unfold calculateAngle, movePoint. cbn [pt_x pt_y]. cbv zeta.
    replace (s * pt_y c + dy - (s * pt_y b + dy)) with (s * (pt_y c - pt_y b)) by ring.
    replace (s * pt_x c + dx - (s * pt_x b + dx)) with (s * (pt_x c - pt_x b)) by ring.
    replace (s * pt_y a + dy - (s * pt_y b + dy)) with (s * (pt_y a - pt_y b)) by ring.
    replace (s * pt_x a + dx - (s * pt_x b + dx)) with (s * (pt_x a - pt_x b)) by ring.
    now rewrite !Math_atan2_scale by assumption.
Qed.

(** A right angle and a straight line. *)
Example calculateAngle_right :
  calculateAngle (mkPoint 1 0) (mkPoint 0 0) (mkPoint 0 1) = 90.
Proof.
  pose proof PI_RGT_0 as Hpi.
  unfold calculateAngle, Math_abs, Math_PI, Math_atan2, js_gt. cbn [pt_x pt_y]. cbv zeta.
  replace (0 - 0) with 0 by lra. replace (1 - 0) with 1 by lra.
  repeat (case_bool_decide; try lra).
  all: replace (0 / 1) with 0 in * by lra; rewrite atan_0 in *.
  all: assert ((PI / 2 - 0) * 180.0 / PI = 90) as E
         by (pose proof (Rinv_r PI ltac:(lra)); unfold Rdiv; nra).
  all: rewrite E in *; rewrite Rabs_right in * by lra; lra.
Qed.

Example calculateAngle_straight :
  calculateAngle (mkPoint (-1) 0) (mkPoint 0 0) (mkPoint 1 0) = 180.
Proof.
  pose proof PI_RGT_0 as Hpi.
  unfold calculateAngle, Math_abs, Math_PI, Math_atan2, js_gt. cbn [pt_x pt_y]. cbv zeta.
  replace (0 - 0) with 0 by lra. replace (1 - 0) with 1 by lra.
  replace (-1 - 0) with (-1) by lra.
  repeat (case_bool_decide; try lra).
  all: replace (0 / 1) with 0 in * by lra; replace (0 / -1) with 0 in * by lra;
    rewrite atan_0 in *.
  all: assert ((0 - (0 + PI)) * 180.0 / PI = -180) as E
         by (pose proof (Rinv_r PI ltac:(lra)); unfold Rdiv; nra).
  all: rewrite E in *; rewrite Rabs_left in * by lra; lra.
Qed.

(** ** [scorePoseAgainstTemplate] *)

Import usePoseDetectionScore.

(** X23.  Whatever the detector returned, for a frame of positive size the
    stored score result counts every template part once, its score lies in
    [0, 100], and the stored feedback is not empty.  Only the first pose
    counts; and without a pose the stored result is the one [scorePose]
    gives for a pose without keypoints, with the single message that no pose
    was detected. *)
Theorem scorePoseAgainstTemplate_stored (poses : list Pose) (template : PoseTemplate)
    (w h : R) :
  0 < w → 0 < h →
  let stored := scorePoseAgainstTemplate poses template w h in
  (matchedKeypoints stored.1 + length (missingKeypoints stored.1)
   = totalKeypoints stored.1)%nat
  ∧ totalKeypoints stored.1 = length (Object_keys (tpl_keypoints template))
  ∧ 0 <= score stored.1 <= 100
  ∧ stored.2 ≠ []
  ∧ (∀ pose0 rest, poses = pose0 :: rest →
       stored = scorePoseAgainstTemplate [pose0] template w h)
  ∧ (poses = [] →
       stored = (scorePose (mkPose (Some [])) template w h, [msg_no_pose])).
Proof.
  intros _ _ stored. subst stored. destruct poses as [|pose0 rest].
  - cbn [scorePoseAgainstTemplate fst snd score matchedKeypoints totalKeypoints
         missingKeypoints].
    repeat split; try reflexivity; try lra; try discriminate.
  - cbn [scorePoseAgainstTemplate fst snd].
    split; [|split; [|split; [|split; [|split]]]].
    + rewrite scorePose_missing, scorePose_matched, scorePose_total.
      rewrite <- length_app. apply Permutation_length, filter_split_perm.
    + apply scorePose_total.
    + rewrite scorePose_score. apply (Math_round_range _ 0 100), finalScore_range.
    + rewrite getPoseFeedback_parts. discriminate.
    + now intros ? ? [= <- <-].
    + discriminate.
Qed.

Lemma scorePoseAgainstTemplate_stored_witness :
  0 < 640 ∧ 0 < 480
  ∧ 0 <= score (scorePoseAgainstTemplate [Samples.pose_off_target] side_chest 640 480).1
    <= 100.
Proof.
  split; [lra|]. split; [lra|].
  apply (scorePoseAgainstTemplate_stored [Samples.pose_off_target] side_chest 640 480);
    lra.
Defined.

(** ** The keypoints [analyzePose] reads *)

Lemma useKeypointMap_snoc (l : list Keypoint) (k : Keypoint) :
  usePoseDetection.keypointMap (l ++ [k])
  = <[kp_name k := k]> (usePoseDetection.keypointMap l).
Proof. unfold usePoseDetection.keypointMap. now rewrite fold_left_app. Qed.

Lemma useKeypointMap_sound (l : list Keypoint) (key : option string) (k : Keypoint) :
  usePoseDetection.keypointMap l !! key = Some k → k ∈ l ∧ kp_name k = key.
Proof.
  induction l as [|k0 l IH] using rev_ind.
  - unfold usePoseDetection.keypointMap. cbn. now rewrite lookup_empty.
  - rewrite useKeypointMap_snoc, lookup_insert. case_decide as E.
    + intros [= <-]. split; [|exact E]. apply elem_of_app. right. left.
    + intros H. destruct (IH H) as [Hin Hn]. split; [|exact Hn].
      apply elem_of_app. now left.
Qed.

Lemma useKeypointMap_complete (l : list Keypoint) (k : Keypoint) :
  k ∈ l → is_Some (usePoseDetection.keypointMap l !! kp_name k).
Proof.
  induction l as [|k0 l IH] using rev_ind; intros Hin.
  - now apply elem_of_nil in Hin.
  - rewrite useKeypointMap_snoc, lookup_insert. case_decide; [eauto|].
    apply elem_of_app in Hin as [Hin|Hin]; [now apply IH|].
    apply list_elem_of_singleton in Hin. congruence.
Qed.

(** X24.  The checks of [analyzePose] see a name exactly when the pose has a
    keypoint of that name with a confidence above 0.2; the keypoint seen
    under a name is such a keypoint of the pose; and of several, the last
    one is seen. *)
Theorem seen_confident (pose : Pose) (n : string) :
  (is_Some (seen pose n)
   ↔ ∃ all k, pose_keypoints pose = Some all ∧ k ∈ all
              ∧ confidenceAbove 0.2 k = true ∧ kp_name k = Some n)
  ∧ (∀ k, seen pose n = Some k →
          confidenceAbove 0.2 k = true ∧ kp_name k = Some n
          ∧ ∃ all, pose_keypoints pose = Some all ∧ k ∈ all)
  ∧ (∀ all k, pose_keypoints pose = Some (all ++ [k]) →
              confidenceAbove 0.2 k = true → kp_name k = Some n →
              seen pose n = Some k).
Proof.
  assert (Hmem : ∀ all k, k ∈ List.filter confident all
                          ↔ k ∈ all ∧ confidenceAbove 0.2 k = true).
  { intros all k. rewrite !list_elem_of_In, filter_In, confident_above. tauto. }
  unfold seen. destruct (pose_keypoints pose) as [all|]; cbn [mbind option_bind].
  - split; [split|split].
    + intros [k Hk]. apply useKeypointMap_sound in Hk as [Hin Hn].
      apply Hmem in Hin as [Hin Hc]. exists all, k. auto.
    + intros (all' & k & [= <-] & Hin & Hc & Hn). rewrite <- Hn.
      apply useKeypointMap_complete, Hmem. auto.
    + intros k Hk. apply useKeypointMap_sound in Hk as [Hin Hn].
      apply Hmem in Hin as [Hin Hc]. eauto.
    + intros all' k [= ->] Hc Hn. rewrite List.filter_app. cbn [List.filter].
      rewrite confident_above, Hc, useKeypointMap_snoc, Hn. apply lookup_insert_eq.
  - split; [split|split].
    + intros [? ?]. discriminate.
    + intros (? & ? & ? & _). discriminate.
    + discriminate.
    + discriminate.
Qed.
